(** * Logical-decoding snapshot files: the reader of pg_logicalsnapinspect

    A shallow embedding of [contrib/pg_logicalsnapinspect/pg_logicalsnapinspect.c]
    and of the on-disk layout declared in [src/include/replication/snapbuild.h].

    Conventions.  C unsigned integers of width [w] are [Z] values in
    [0, 2^w); arithmetic that can wrap in C is written with its [mod].
    A file is the [list byte] of its contents; a file descriptor is the
    list of bytes that remain to be read.  The struct layout is the one of
    the LP64 little-endian ABI (x86-64, aarch64), where [sizeof(SnapBuild)]
    is 128 and [offsetof(SnapBuildOnDisk, builder)] is 16. *)

From Stdlib.Strings Require Import String Ascii Byte.
From Stdlib Require Import ZArith List Bool Lia.
From Stdlib Require Import Sorted Permutation.
Import ListNotations.

#[local] Open Scope Z_scope.

(* ================================================================== *)
(** ** Bytes and little-endian integers *)

Module Bytes.

Definition byte_to_Z (b : byte) : Z := Z.of_N (Byte.to_N b).

Definition byte_of_Z (z : Z) : byte :=
  match Byte.of_N (Z.to_N (z mod 256)) with
  | Some b => b
  | None => x00
  end.

(** The value of an unsigned integer stored least significant byte first. *)
Fixpoint decode_le (bs : list byte) : Z :=
  match bs with
  | [] => 0
  | b :: bs' => byte_to_Z b + 256 * decode_le bs'
  end.

(** [n] bytes holding [v mod 2^(8n)], least significant byte first. *)
Fixpoint encode_le (n : nat) (v : Z) : list byte :=
  match n with
  | O => []
  | S n' => byte_of_Z v :: encode_le n' (v / 256)
  end.

(** The bytes [off, off+len) of a buffer. *)
Definition slice (off len : nat) (bs : list byte) : list byte :=
  firstn len (skipn off bs).

(** An unsigned field of [len] bytes at offset [off]. *)
Definition field (off len : nat) (bs : list byte) : Z :=
  decode_le (slice off len bs).

Lemma byte_to_Z_range (b : byte) : 0 <= byte_to_Z b < 256.
Proof.
  unfold byte_to_Z. pose proof (Byte.to_N_bounded b) as H.
  lia.
Qed.

Lemma byte_to_Z_inj (a b : byte) : byte_to_Z a = byte_to_Z b -> a = b.
Proof.
  unfold byte_to_Z. intro H. apply N2Z.inj in H.
  apply (f_equal Byte.of_N) in H.
  rewrite !Byte.of_to_N in H. congruence.
Qed.

Lemma byte_of_to_Z (b : byte) : byte_of_Z (byte_to_Z b) = b.
Proof.
  unfold byte_of_Z. pose proof (byte_to_Z_range b) as R.
  rewrite Z.mod_small by lia.
  unfold byte_to_Z. rewrite N2Z.id, Byte.of_to_N. reflexivity.
Qed.

Lemma byte_to_of_Z (z : Z) : byte_to_Z (byte_of_Z z) = z mod 256.
Proof.
  unfold byte_of_Z.
  pose proof (Z.mod_pos_bound z 256 ltac:(lia)) as R.
  destruct (Byte.of_N (Z.to_N (z mod 256))) as [b|] eqn:E.
  - apply Byte.to_of_N in E. unfold byte_to_Z. rewrite E. lia.
  - apply Byte.of_N_None_iff in E. lia.
Qed.

Lemma decode_le_range (bs : list byte) :
  0 <= decode_le bs < 256 ^ Z.of_nat (length bs).
Proof.
  induction bs as [|b bs IH].
  - simpl. lia.
  - cbn [decode_le length]. rewrite Nat2Z.inj_succ, Z.pow_succ_r by lia.
    pose proof (byte_to_Z_range b). lia.
Qed.

Lemma length_encode_le (n : nat) (v : Z) : length (encode_le n v) = n.
Proof.
  revert v. induction n as [|n IH]; intro v; simpl; [reflexivity|].
  now rewrite IH.
Qed.

Lemma decode_encode_le (n : nat) (v : Z) :
  decode_le (encode_le n v) = v mod 256 ^ Z.of_nat n.
Proof.
  revert v. induction n as [|n IH]; intro v.
  - simpl. now rewrite Z.mod_1_r.
  - cbn [encode_le decode_le]. rewrite IH, byte_to_of_Z.
    rewrite Nat2Z.inj_succ, Z.pow_succ_r by lia.
    rewrite Z.rem_mul_r by lia. reflexivity.
Qed.

Lemma encode_decode_le (bs : list byte) :
  encode_le (length bs) (decode_le bs) = bs.
Proof.
  induction bs as [|b bs IH]; [reflexivity|].
  cbn [length encode_le decode_le].
  pose proof (byte_to_Z_range b) as R.
  f_equal.
  - rewrite <- (byte_of_to_Z b) at 2. unfold byte_of_Z.
    replace ((byte_to_Z b + 256 * decode_le bs) mod 256)
      with (byte_to_Z b mod 256); [reflexivity|].
    rewrite (Z.mul_comm 256), Z.mod_add by lia. reflexivity.
  - replace ((byte_to_Z b + 256 * decode_le bs) / 256) with (decode_le bs);
      [exact IH|].
    rewrite (Z.mul_comm 256), Z.div_add by lia.
    rewrite Z.div_small by lia. lia.
Qed.

End Bytes.

(* ================================================================== *)
(** ** The checksum *)

Module CRC32C.
Import Bytes.

(** Modelled from the spec: the checksum of the on-disk record.  The macros
    [INIT_CRC32C], [COMP_CRC32C], [FIN_CRC32C] and [EQ_CRC32C] used by the
    reader come from [port/pg_crc32c.h], which is not among the sources at
    hand; they are taken to compute the CRC-32C (Castagnoli) that their
    names announce: reflected polynomial [0x82F63B78], register started at
    [0xFFFFFFFF] and complemented at the end. *)
Definition POLY : Z := 0x82F63B78.

(** One shift of the reflected register. *)
Definition step (c : Z) : Z :=
  if Z.odd c then Z.lxor (Z.shiftr c 1) POLY else Z.shiftr c 1.

(** Feeding one byte: eight shifts after xoring the byte in. *)
Definition update_byte (c : Z) (b : byte) : Z :=
  Nat.iter 8 step (Z.lxor c (byte_to_Z b)).

Definition INIT_CRC32C : Z := 0xFFFFFFFF.

Definition COMP_CRC32C (crc : Z) (data : list byte) : Z :=
  fold_left update_byte data crc.

Definition FIN_CRC32C (crc : Z) : Z := Z.lxor crc 0xFFFFFFFF.

Definition EQ_CRC32C (c1 c2 : Z) : bool := c1 =? c2.

(** The checksum of a whole buffer. *)
Definition crc32c (data : list byte) : Z :=
  FIN_CRC32C (COMP_CRC32C INIT_CRC32C data).

Definition u32 (c : Z) : Prop := 0 <= c < 2 ^ 32.

(** The standard check value of CRC-32C, on the ASCII digits 1 to 9. *)
Example crc32c_check_value :
  crc32c [x31; x32; x33; x34; x35; x36; x37; x38; x39] = 0xE3069283.
Proof. vm_compute. reflexivity. Qed.

Lemma COMP_CRC32C_app (c : Z) (a b : list byte) :
  COMP_CRC32C (COMP_CRC32C c a) b = COMP_CRC32C c (a ++ b).
Proof. unfold COMP_CRC32C. now rewrite fold_left_app. Qed.

Lemma testbit_above (a n i : Z) :
  0 <= a < 2 ^ n -> 0 <= n <= i -> Z.testbit a i = false.
Proof.
  intros Ha Hn.
  destruct (Z.eq_dec a 0) as [->|Hne]; [apply Z.bits_0|].
  apply Z.bits_above_log2; [lia|].
  assert (Z.log2 a < n) by (apply Z.log2_lt_pow2; lia).
  lia.
Qed.

Lemma lxor_range (a b n : Z) :
  0 <= n -> 0 <= a < 2 ^ n -> 0 <= b < 2 ^ n -> 0 <= Z.lxor a b < 2 ^ n.
Proof.
  intros Hn Ha Hb.
  assert (Hnn : 0 <= Z.lxor a b) by (apply Z.lxor_nonneg; lia).
  split; [exact Hnn|].
  destruct (Z.eq_dec (Z.lxor a b) 0) as [->|Hne].
  - apply Z.pow_pos_nonneg; lia.
  - assert (Hpos : 0 < n).
    { destruct (Z.eq_dec n 0) as [->|]; [|lia].
      change (2 ^ 0) with 1 in Ha, Hb.
      exfalso. apply Hne.
      replace a with 0 by lia. replace b with 0 by lia. reflexivity. }
    apply Z.log2_lt_pow2; [lia|].
    pose proof (Z.log2_lxor a b ltac:(lia) ltac:(lia)) as Hl.
    assert (Z.log2 a < n).
    { destruct (Z.eq_dec a 0) as [->|]; [simpl; lia|].
      apply Z.log2_lt_pow2; lia. }
    assert (Z.log2 b < n).
    { destruct (Z.eq_dec b 0) as [->|]; [simpl; lia|].
      apply Z.log2_lt_pow2; lia. }
    lia.
Qed.

Lemma POLY_range : 0 <= POLY < 2 ^ 32.
Proof. unfold POLY. lia. Qed.

Lemma shiftr1_range (c : Z) : u32 c -> 0 <= Z.shiftr c 1 < 2 ^ 31.
Proof.
  unfold u32. intro H. rewrite Z.shiftr_div_pow2 by lia.
  change (2 ^ 1) with 2. change (2 ^ 32) with (2 * 2 ^ 31) in H.
  split; [apply Z.div_pos; lia|].
  apply Z.div_lt_upper_bound; lia.
Qed.

Lemma step_range (c : Z) : u32 c -> u32 (step c).
Proof.
  intro H. pose proof (shiftr1_range c H) as Hs.
  unfold step, u32. destruct (Z.odd c).
  - apply lxor_range; [lia| |exact POLY_range].
    change (2 ^ 32) with (2 * 2 ^ 31). lia.
  - change (2 ^ 32) with (2 * 2 ^ 31). lia.
Qed.

Lemma shiftr1_odd_inj (c d : Z) :
  Z.odd c = Z.odd d -> Z.shiftr c 1 = Z.shiftr d 1 -> c = d.
Proof.
  intros Ho Hs. rewrite <- !Z.div2_spec in Hs.
  rewrite (Zdiv2_odd_eqn c), (Zdiv2_odd_eqn d), Ho, Hs. reflexivity.
Qed.

(** The shift is one-to-one on 32-bit registers: bit 31 of the result
    tells whether the polynomial was xored in. *)
Lemma step_inj (c d : Z) : u32 c -> u32 d -> step c = step d -> c = d.
Proof.
  intros Hc Hd E.
  pose proof (shiftr1_range c Hc) as Rc.
  pose proof (shiftr1_range d Hd) as Rd.
  assert (Hhi : forall x, 0 <= x < 2 ^ 31 ->
                 Z.testbit (Z.lxor x POLY) 31 = true).
  { intros x Hx. rewrite Z.lxor_spec.
    rewrite (testbit_above x 31 31) by lia. reflexivity. }
  assert (Hlo : forall x, 0 <= x < 2 ^ 31 -> Z.testbit x 31 = false).
  { intros x Hx. apply (testbit_above x 31 31); lia. }
  unfold step in E.
  destruct (Z.odd c) eqn:Oc, (Z.odd d) eqn:Od.
  - apply shiftr1_odd_inj; [congruence|].
    apply (f_equal (fun v => Z.lxor v POLY)) in E.
    rewrite !Z.lxor_assoc, Z.lxor_nilpotent, !Z.lxor_0_r in E. exact E.
  - exfalso. pose proof (Hhi _ Rc) as H1. pose proof (Hlo _ Rd) as H2.
    rewrite E in H1. congruence.
  - exfalso. pose proof (Hhi _ Rd) as H1. pose proof (Hlo _ Rc) as H2.
    rewrite <- E in H1. congruence.
  - apply shiftr1_odd_inj; congruence.
Qed.

Lemma iter_step_range (n : nat) (c : Z) : u32 c -> u32 (Nat.iter n step c).
Proof.
  intro H. induction n as [|n IH]; [exact H|].
  simpl. now apply step_range.
Qed.

Lemma iter_step_inj (n : nat) (c d : Z) :
  u32 c -> u32 d -> Nat.iter n step c = Nat.iter n step d -> c = d.
Proof.
  intros Hc Hd. induction n as [|n IH]; intro E; [exact E|].
  simpl in E. apply IH.
  apply step_inj; auto using iter_step_range.
Qed.

Lemma byte_u32 (b : byte) : u32 (byte_to_Z b).
Proof. unfold u32. pose proof (byte_to_Z_range b). lia. Qed.

Lemma update_byte_range (c : Z) (b : byte) : u32 c -> u32 (update_byte c b).
Proof.
  intro H. unfold update_byte. apply iter_step_range.
  apply lxor_range; [lia|exact H|apply byte_u32].
Qed.

Lemma COMP_CRC32C_range (data : list byte) (c : Z) :
  u32 c -> u32 (COMP_CRC32C c data).
Proof.
  revert c. induction data as [|b data IH]; intros c H; [exact H|].
  simpl. apply IH. now apply update_byte_range.
Qed.

Lemma INIT_CRC32C_range : u32 INIT_CRC32C.
Proof. unfold u32, INIT_CRC32C. lia. Qed.

Lemma FIN_CRC32C_range (c : Z) : u32 c -> u32 (FIN_CRC32C c).
Proof.
  intro H. unfold FIN_CRC32C. apply lxor_range; [lia|exact H|lia].
Qed.

Lemma crc32c_range (data : list byte) : u32 (crc32c data).
Proof.
  apply FIN_CRC32C_range, COMP_CRC32C_range, INIT_CRC32C_range.
Qed.

Lemma update_byte_inj_state (b : byte) (c d : Z) :
  u32 c -> u32 d -> update_byte c b = update_byte d b -> c = d.
Proof.
  intros Hc Hd E. unfold update_byte in E.
  apply iter_step_inj in E;
    try (apply lxor_range; [lia|assumption|apply byte_u32]).
  apply (f_equal (fun v => Z.lxor v (byte_to_Z b))) in E.
  rewrite !Z.lxor_assoc, Z.lxor_nilpotent, !Z.lxor_0_r in E. exact E.
Qed.

Lemma update_byte_inj_byte (c : Z) (a b : byte) :
  u32 c -> update_byte c a = update_byte c b -> a = b.
Proof.
  intros Hc E. unfold update_byte in E.
  apply iter_step_inj in E;
    try (apply lxor_range; [lia|assumption|apply byte_u32]).
  apply byte_to_Z_inj.
  apply (f_equal (Z.lxor c)) in E.
  rewrite <- !Z.lxor_assoc, Z.lxor_nilpotent, !Z.lxor_0_l in E. exact E.
Qed.

Lemma COMP_CRC32C_inj_state (data : list byte) (c d : Z) :
  u32 c -> u32 d -> COMP_CRC32C c data = COMP_CRC32C d data -> c = d.
Proof.
  revert c d. induction data as [|b data IH]; intros c d Hc Hd E.
  - exact E.
  - simpl in E. apply IH in E; auto using update_byte_range.
    now apply update_byte_inj_state in E.
Qed.

(** Replacing one byte of the data by a different one always changes the
    register, whatever precedes and follows it. *)
Lemma COMP_CRC32C_one_byte (c : Z) (pre post : list byte) (a b : byte) :
  u32 c -> a <> b ->
  COMP_CRC32C c (pre ++ a :: post) <> COMP_CRC32C c (pre ++ b :: post).
Proof.
  intros Hc Hab E.
  rewrite <- !COMP_CRC32C_app in E. simpl in E.
  apply COMP_CRC32C_inj_state in E;
    try (apply update_byte_range, COMP_CRC32C_range; exact Hc).
  apply update_byte_inj_byte in E; [contradiction|].
  apply COMP_CRC32C_range; exact Hc.
Qed.

Lemma FIN_CRC32C_inj (c d : Z) : FIN_CRC32C c = FIN_CRC32C d -> c = d.
Proof.
  unfold FIN_CRC32C. intro E.
  apply (f_equal (fun v => Z.lxor v 0xFFFFFFFF)) in E.
  rewrite !Z.lxor_assoc, Z.lxor_nilpotent, !Z.lxor_0_r in E. exact E.
Qed.

Lemma EQ_CRC32C_spec (c1 c2 : Z) : EQ_CRC32C c1 c2 = true <-> c1 = c2.
Proof. unfold EQ_CRC32C. apply Z.eqb_eq. Qed.

End CRC32C.

(* ================================================================== *)
(** ** The structs of snapbuild.h *)

(** A pointer-typed member.  What a file holds in such a member is the raw
    address of the process that wrote it; the reader overwrites the ones it
    uses with objects of its own. *)
Inductive pointer : Type :=
| Raw (bits : Z)
| Context (name : string)
| Xids (elems : list Z).

(** [struct SnapBuild]; the two anonymous member structs [committed] and
    [catchange] are flattened with their name as a prefix. *)
Record SnapBuild : Type := mkSnapBuild {
  state : Z;
  context : pointer;
  xmin : Z;
  xmax : Z;
  start_decoding_at : Z;
  two_phase_at : Z;
  initial_xmin_horizon : Z;
  building_full_snapshot : Z;
  in_slot_creation : Z;
  snapshot : pointer;
  last_serialized_snapshot : Z;
  reorder : pointer;
  next_phase_at : Z;
  committed_xcnt : Z;
  committed_xcnt_space : Z;
  committed_includes_all_transactions : Z;
  committed_xip : pointer;
  catchange_xcnt : Z;
  catchange_xip : pointer
}.

(** [struct SnapBuildOnDisk]. *)
Record SnapBuildOnDisk : Type := mkSnapBuildOnDisk {
  magic : Z;
  checksum : Z;
  version : Z;
  length_ : Z;
  builder : SnapBuild
}.

Definition SNAPBUILD_MAGIC : Z := 0x51A1E001.
Definition SNAPBUILD_VERSION : Z := 6.

(** [SnapBuildState]. *)
Definition SNAPBUILD_START : Z := -1.
Definition SNAPBUILD_BUILDING_SNAPSHOT : Z := 0.
Definition SNAPBUILD_FULL_SNAPSHOT : Z := 1.
Definition SNAPBUILD_CONSISTENT : Z := 2.

Module Layout.
Import Bytes.

(** [offsetof(SnapBuildOnDisk, builder)] *)
Definition SnapBuildOnDiskConstantSize : Z := 16.
(** [offsetof(SnapBuildOnDisk, version)] *)
Definition SnapBuildOnDiskNotChecksummedSize : Z := 8.
(** [sizeof(SnapBuild)] *)
Definition sizeof_SnapBuild : Z := 128.
(** [sizeof(TransactionId)] *)
Definition sizeof_TransactionId : Z := 4.
(** [Size] is 64 bits wide. *)
Definition SIZE_MAX_plus_1 : Z := 2 ^ 64.

(** A two's complement value of [8 * len] bits. *)
Definition signed (len : nat) (v : Z) : Z :=
  if v <? 256 ^ Z.of_nat len / 2 then v else v - 256 ^ Z.of_nat len.

(** The members of a [SnapBuild] held in [sizeof(SnapBuild)] bytes of
    memory; bytes 4-7, 46-47, 76-79 and 97-103 are padding. *)
Definition SnapBuild_of_bytes (m : list byte) : SnapBuild :=
  {| state := signed 4 (field 0 4 m);
     context := Raw (field 8 8 m);
     xmin := field 16 4 m;
     xmax := field 20 4 m;
     start_decoding_at := field 24 8 m;
     two_phase_at := field 32 8 m;
     initial_xmin_horizon := field 40 4 m;
     building_full_snapshot := field 44 1 m;
     in_slot_creation := field 45 1 m;
     snapshot := Raw (field 48 8 m);
     last_serialized_snapshot := field 56 8 m;
     reorder := Raw (field 64 8 m);
     next_phase_at := field 72 4 m;
     committed_xcnt := field 80 8 m;
     committed_xcnt_space := field 88 8 m;
     committed_includes_all_transactions := field 96 1 m;
     committed_xip := Raw (field 104 8 m);
     catchange_xcnt := field 112 8 m;
     catchange_xip := Raw (field 120 8 m) |}.

(** An array of [TransactionId] held in memory. *)
Fixpoint xids_of_bytes (m : list byte) : list Z :=
  match m with
  | b0 :: b1 :: b2 :: b3 :: m' => decode_le [b0; b1; b2; b3] :: xids_of_bytes m'
  | _ => []
  end.

Definition set_context (c : pointer) (b : SnapBuild) : SnapBuild :=
  mkSnapBuild (state b) c (xmin b) (xmax b) (start_decoding_at b)
    (two_phase_at b) (initial_xmin_horizon b) (building_full_snapshot b)
    (in_slot_creation b) (snapshot b) (last_serialized_snapshot b)
    (reorder b) (next_phase_at b) (committed_xcnt b)
    (committed_xcnt_space b) (committed_includes_all_transactions b)
    (committed_xip b) (catchange_xcnt b) (catchange_xip b).

Definition set_committed_xip (p : pointer) (b : SnapBuild) : SnapBuild :=
  mkSnapBuild (state b) (context b) (xmin b) (xmax b) (start_decoding_at b)
    (two_phase_at b) (initial_xmin_horizon b) (building_full_snapshot b)
    (in_slot_creation b) (snapshot b) (last_serialized_snapshot b)
    (reorder b) (next_phase_at b) (committed_xcnt b)
    (committed_xcnt_space b) (committed_includes_all_transactions b)
    p (catchange_xcnt b) (catchange_xip b).

Definition set_catchange_xip (p : pointer) (b : SnapBuild) : SnapBuild :=
  mkSnapBuild (state b) (context b) (xmin b) (xmax b) (start_decoding_at b)
    (two_phase_at b) (initial_xmin_horizon b) (building_full_snapshot b)
    (in_slot_creation b) (snapshot b) (last_serialized_snapshot b)
    (reorder b) (next_phase_at b) (committed_xcnt b)
    (committed_xcnt_space b) (committed_includes_all_transactions b)
    (committed_xip b) (catchange_xcnt b) p.

End Layout.

(* ================================================================== *)
(** ** Errors and the environment of the reader *)

(** The SQLSTATE that an [ereport(ERROR, ...)] carries. *)
Inductive errcode : Type :=
| ERRCODE_INTERNAL_ERROR          (* no errcode() in the call *)
| ERRCODE_DATA_CORRUPTED
| errcode_for_file_access (errno : Z).

(** The message of an [ereport], by its format string, with the values
    that fill it. *)
Inductive errmsg : Type :=
| file_does_not_exist (path : string)
    (* file "%s" does not exist *)
| could_not_open_file (path : string) (errno : Z)
    (* could not open file "%s": %m *)
| wrong_magic_number (path : string) (found expected : Z)
    (* snapbuild state file "%s" has wrong magic number: %u instead of %u *)
| unsupported_version (path : string) (found expected : Z)
    (* snapbuild state file "%s" has unsupported version: %u instead of %u *)
| could_not_close_file (path : string) (errno : Z)
    (* could not close file "%s": %m *)
| checksum_mismatch (path : string) (computed stored : Z)
    (* checksum mismatch for snapbuild state file "%s": is %u, should be %u *)
| could_not_read_file (path : string) (read wanted : Z)
    (* could not read file "%s": read %d of %zu *)
| invalid_memory_alloc_request_size (size : Z).
    (* invalid memory alloc request size %zu *)

Record error : Type := ERROR { sqlerrcode : errcode; message : errmsg }.

Inductive result (A : Type) : Type :=
| OK (a : A)
| Raise (e : error).
Arguments OK {A} a.
Arguments Raise {A} e.

(** What the file system answers to [OpenTransientFile]: a descriptor on
    the contents of the file, together with what [CloseTransientFile] will
    answer for it (the [errno] of a failed close), or the [errno] of the
    failed open. *)
Record open_file : Type := mkFile {
  contents : list byte;
  close_errno : option Z
}.

Inductive open_outcome : Type :=
| Opened (f : open_file)
| OpenFailed (errno : Z).

Definition filesystem : Type := string -> open_outcome.

Definition ENOENT : Z := 2.

(* ================================================================== *)
(** ** pg_logicalsnapinspect.c *)

Module Reader.
Import Bytes CRC32C Layout.

(** Code that reads from an open descriptor: it is given the bytes not
    read so far, and either raises or returns a value and the bytes left. *)
Definition io (A : Type) : Type := list byte -> result (A * list byte).

Definition ret {A : Type} (a : A) : io A := fun fd => OK (a, fd).

Definition bind {A B : Type} (m : io A) (k : A -> io B) : io B :=
  fun fd =>
    match m fd with
    | OK (a, fd') => k a fd'
    | Raise e => Raise e
    end.

Definition ereport {A : Type} (e : error) : io A := fun _ => Raise e.

Notation "x <- m ;; k" := (bind m (fun x => k))
  (at level 61, m at next level, right associativity).
Notation "' pat <- m ;; k" := (bind m (fun pat => k))
  (at level 61, pat pattern, m at next level, right associativity).

(** Modelled from the spec: [SnapBuildRestoreContents] is declared in
    snapbuild.h and defined in snapbuild.c, which is not among the sources.
    It reads exactly [size] bytes at the current position ("read exactly
    that many"); a file that ends before is a truncated file, reported as a
    data-corruption error with the number of bytes that could be read. *)
Definition SnapBuildRestoreContents (size : Z) (path : string)
  : io (list byte) :=
  fun fd =>
    if Z.of_nat (length fd) <? size
    then Raise (ERROR ERRCODE_DATA_CORRUPTED
                  (could_not_read_file path (Z.of_nat (length fd)) size))
    else OK (firstn (Z.to_nat size) fd, skipn (Z.to_nat size) fd).

(** Modelled from the spec: the largest request the allocator accepts
    ([MaxAllocSize] of utils/memutils.h, one byte less than a gigabyte),
    and [MemoryContextAllocZero], which raises on an oversized request
    ("allocation failure for oversized arrays is propagated as a fatal
    error").  Neither is among the sources. *)
Definition MaxAllocSize : Z := 0x3fffffff.

Definition MemoryContextAllocZero (size : Z) : io unit :=
  if size >? MaxAllocSize
  then ereport (ERROR ERRCODE_INTERNAL_ERROR
                  (invalid_memory_alloc_request_size size))
  else ret tt.

(** [CloseTransientFile(fd) != 0] raises. *)
Definition CloseTransientFile (f : open_file) (path : string) : io unit :=
  match close_errno f with
  | Some errno =>
      ereport (ERROR (errcode_for_file_access errno)
                 (could_not_close_file path errno))
  | None => ret tt
  end.

(** The body of [ValidateSnapshotFile] once the file is open.  The two
    calls of [fsync_fname] that come first leave the contents as they
    are; they and the reads are taken to succeed here, and [ReaderIO]
    below has the reader with their failures. *)
Definition validate_opened (f : open_file) (path : string)
  : io SnapBuildOnDisk :=
  let context := Context "logicalsnapshot inspect context" in
  (* read statically sized portion of snapshot *)
  hdr <- SnapBuildRestoreContents SnapBuildOnDiskConstantSize path ;;
  let ondisk_magic := field 0 4 hdr in
  let ondisk_checksum := field 4 4 hdr in
  let ondisk_version := field 8 4 hdr in
  let ondisk_length := field 12 4 hdr in
  if negb (ondisk_magic =? SNAPBUILD_MAGIC) then
    ereport (ERROR ERRCODE_DATA_CORRUPTED
               (wrong_magic_number path ondisk_magic SNAPBUILD_MAGIC))
  else if negb (ondisk_version =? SNAPBUILD_VERSION) then
    ereport (ERROR ERRCODE_DATA_CORRUPTED
               (unsupported_version path ondisk_version SNAPBUILD_VERSION))
  else
    let checksum := INIT_CRC32C in
    let checksum :=
      COMP_CRC32C checksum
        (slice (Z.to_nat SnapBuildOnDiskNotChecksummedSize)
           (Z.to_nat (SnapBuildOnDiskConstantSize
                      - SnapBuildOnDiskNotChecksummedSize)) hdr) in
    (* read SnapBuild *)
    raw <- SnapBuildRestoreContents sizeof_SnapBuild path ;;
    let checksum := COMP_CRC32C checksum raw in
    let builder := set_context context (SnapBuild_of_bytes raw) in
    (* restore committed xacts information *)
    '(builder, checksum) <-
      (if committed_xcnt builder >? 0 then
         let sz := (sizeof_TransactionId * committed_xcnt builder)
                   mod SIZE_MAX_plus_1 in
         _ <- MemoryContextAllocZero sz ;;
         xip <- SnapBuildRestoreContents sz path ;;
         ret (set_committed_xip (Xids (xids_of_bytes xip)) builder,
              COMP_CRC32C checksum xip)
       else ret (builder, checksum)) ;;
    (* restore catalog modifying xacts information *)
    '(builder, checksum) <-
      (if catchange_xcnt builder >? 0 then
         let sz := (sizeof_TransactionId * catchange_xcnt builder)
                   mod SIZE_MAX_plus_1 in
         _ <- MemoryContextAllocZero sz ;;
         xip <- SnapBuildRestoreContents sz path ;;
         ret (set_catchange_xip (Xids (xids_of_bytes xip)) builder,
              COMP_CRC32C checksum xip)
       else ret (builder, checksum)) ;;
    _ <- CloseTransientFile f path ;;
    let checksum := FIN_CRC32C checksum in
    (* verify checksum of what we've read *)
    if negb (EQ_CRC32C checksum ondisk_checksum) then
      ereport (ERROR ERRCODE_DATA_CORRUPTED
                 (checksum_mismatch path checksum ondisk_checksum))
    else
      ret (mkSnapBuildOnDisk ondisk_magic ondisk_checksum ondisk_version
             ondisk_length builder).

(** Validate the logical snapshot file. *)
Definition ValidateSnapshotFile (fs : filesystem) (lsn : Z) (path : string)
  : result SnapBuildOnDisk :=
  match fs path with
  | OpenFailed errno =>
      if errno =? ENOENT then
        Raise (ERROR ERRCODE_INTERNAL_ERROR (file_does_not_exist path))
      else
        Raise (ERROR (errcode_for_file_access errno)
                 (could_not_open_file path errno))
  | Opened f =>
      match validate_opened f path (contents f) with
      | OK (ondisk, _) => OK ondisk
      | Raise e => Raise e
      end
  end.

(** [%X] of a 32-bit value: upper-case hexadecimal digits, none leading. *)
Definition hex_digit (d : Z) : ascii :=
  nth (Z.to_nat d)
    ["0"; "1"; "2"; "3"; "4"; "5"; "6"; "7";
     "8"; "9"; "A"; "B"; "C"; "D"; "E"; "F"]%char "0"%char.

Fixpoint hex_digits (n : nat) (v : Z) (acc : string) : string :=
  match n with
  | O => acc
  | S n' =>
      if v =? 0 then acc
      else hex_digits n' (v / 16) (String (hex_digit (v mod 16)) acc)
  end.

Definition format_X (v : Z) : string :=
  if v =? 0 then "0"%string else hex_digits 8 v EmptyString.

(** [sprintf(path, "pg_logical/snapshots/%X-%X.snap", LSN_FORMAT_ARGS(lsn))]:
    the high and the low 32 bits of the position. *)
Definition snapshot_path (lsn : Z) : string :=
  ("pg_logical/snapshots/" ++ format_X ((lsn / 2 ^ 32) mod 2 ^ 32)
     ++ "-" ++ format_X (lsn mod 2 ^ 32) ++ ".snap")%string.

(** [Int32GetDatum] of a [uint32]. *)
Definition Int32GetDatum (v : Z) : Z := signed 4 v.

(** The row that [pg_get_logical_snapshot_meta] returns. *)
Record meta_row : Type := mkMeta {
  meta_magic : Z;
  meta_checksum : Z;
  meta_version : Z
}.

(** Retrieve the logical snapshot file metadata. *)
Definition pg_get_logical_snapshot_meta (fs : filesystem) (lsn : Z)
  : result meta_row :=
  let path := snapshot_path lsn in
  match ValidateSnapshotFile fs lsn path with
  | Raise e => Raise e
  | OK ondisk =>
      OK (mkMeta (Int32GetDatum (magic ondisk))
                 (Int32GetDatum (checksum ondisk))
                 (Int32GetDatum (version ondisk)))
  end.

End Reader.

(* ================================================================== *)
(** ** The reader, by offsets into the file *)

Module ReaderFacts.
Import Bytes CRC32C Layout Reader.

(** The bytes that the array of [xcnt] ids takes, as the reader computes
    it in a [Size]; nothing is read for a count of zero. *)
Definition array_bytes (xcnt : Z) : Z :=
  if xcnt >? 0 then (sizeof_TransactionId * xcnt) mod SIZE_MAX_plus_1 else 0.

(** The state block of a file, as it lies at offset 16. *)
Definition raw_builder (c : list byte) : SnapBuild :=
  SnapBuild_of_bytes (slice 16 128 c).

Definition committed_bytes (c : list byte) : Z :=
  array_bytes (committed_xcnt (raw_builder c)).

Definition catchange_bytes (c : list byte) : Z :=
  array_bytes (catchange_xcnt (raw_builder c)).

(** Where the record ends: the offset after the second array. *)
Definition record_end (c : list byte) : Z :=
  144 + committed_bytes c + catchange_bytes c.

(** The bytes of a file from the member [version] to the end of the record. *)
Definition covered (c : list byte) : list byte :=
  slice 8 (Z.to_nat (record_end c) - 8) c.

Definition committed_array (c : list byte) : list byte :=
  slice 144 (Z.to_nat (committed_bytes c)) c.

Definition catchange_array (c : list byte) : list byte :=
  slice (144 + Z.to_nat (committed_bytes c))
        (Z.to_nat (catchange_bytes c)) c.

(** What the reader makes of a state block once it has read the two
    arrays: the context is its own, and an array that was read replaces
    the pointer that the file held. *)
Definition attach (b : SnapBuild) (committed catchange : list byte)
  : SnapBuild :=
  let b := set_context (Context "logicalsnapshot inspect context") b in
  let b := if committed_xcnt b >? 0
           then set_committed_xip (Xids (xids_of_bytes committed)) b
           else b in
  if catchange_xcnt b >? 0
  then set_catchange_xip (Xids (xids_of_bytes catchange)) b
  else b.

(** The builder that the reader leaves in [ondisk] for an accepted file. *)
Definition restored_builder (c : list byte) : SnapBuild :=
  attach (raw_builder c) (committed_array c) (catchange_array c).

(** The conditions under which the reader gets as far as comparing the
    two checksums: magic and version are the expected ones, both arrays
    can be allocated, the file is long enough to hold the record, and it
    closes. *)
Definition reaches_checksum (f : open_file) : Prop :=
  let c := contents f in
  field 0 4 c = SNAPBUILD_MAGIC /\
  field 8 4 c = SNAPBUILD_VERSION /\
  committed_bytes c <= MaxAllocSize /\
  catchange_bytes c <= MaxAllocSize /\
  record_end c <= Z.of_nat (length c) /\
  close_errno f = None.

(** A file that holds one record and nothing after it, the layout that
    snapbuild.h documents for the state on disk: [struct SnapBuildOnDisk],
    then [committed.xcnt] ids, then [catchange.xcnt] ids. *)
Definition holds_one_record (c : list byte) : Prop :=
  Z.of_nat (length c) = record_end c.

(** The struct that the reader fills for contents it accepts. *)
Definition accepted_ondisk (c : list byte) : SnapBuildOnDisk :=
  mkSnapBuildOnDisk (field 0 4 c) (field 4 4 c) (field 8 4 c)
    (field 12 4 c) (restored_builder c).

Definition truncated {A : Type} (path : string) (have want : Z) : result A :=
  Raise (ERROR ERRCODE_DATA_CORRUPTED (could_not_read_file path have want)).

Definition too_large {A : Type} (size : Z) : result A :=
  Raise (ERROR ERRCODE_INTERNAL_ERROR (invalid_memory_alloc_request_size size)).

(** What the reader answers for an open file, told from its contents. *)
Definition outcome (f : open_file) (path : string) : result SnapBuildOnDisk :=
  let c := contents f in
  let len := Z.of_nat (length c) in
  if len <? 16 then truncated path len 16
  else if negb (field 0 4 c =? SNAPBUILD_MAGIC) then
    Raise (ERROR ERRCODE_DATA_CORRUPTED
             (wrong_magic_number path (field 0 4 c) SNAPBUILD_MAGIC))
  else if negb (field 8 4 c =? SNAPBUILD_VERSION) then
    Raise (ERROR ERRCODE_DATA_CORRUPTED
             (unsupported_version path (field 8 4 c) SNAPBUILD_VERSION))
  else if len - 16 <? 128 then truncated path (len - 16) 128
  else if committed_bytes c >? MaxAllocSize then too_large (committed_bytes c)
  else if len - 144 <? committed_bytes c then
    truncated path (len - 144) (committed_bytes c)
  else if catchange_bytes c >? MaxAllocSize then too_large (catchange_bytes c)
  else if len - 144 - committed_bytes c <? catchange_bytes c then
    truncated path (len - 144 - committed_bytes c) (catchange_bytes c)
  else
    match close_errno f with
    | Some errno =>
        Raise (ERROR (errcode_for_file_access errno)
                 (could_not_close_file path errno))
    | None =>
        if negb (EQ_CRC32C (crc32c (covered c)) (field 4 4 c)) then
          Raise (ERROR ERRCODE_DATA_CORRUPTED
                   (checksum_mismatch path (crc32c (covered c)) (field 4 4 c)))
        else
          OK (mkSnapBuildOnDisk (field 0 4 c) (field 4 4 c) (field 8 4 c)
                (field 12 4 c) (restored_builder c))
    end.

Lemma slice_firstn (off len n : nat) (c : list byte) :
  (off + len <= n)%nat -> slice off len (firstn n c) = slice off len c.
Proof.
  intro H. unfold slice.
  rewrite skipn_firstn_comm, firstn_firstn.
  replace (Nat.min len (n - off)) with len by lia. reflexivity.
Qed.

Lemma slice_skipn (off len k : nat) (c : list byte) :
  slice off len (skipn k c) = slice (off + k) len c.
Proof. unfold slice. now rewrite skipn_skipn. Qed.

Lemma firstn_plus (n m : nat) (l : list byte) :
  firstn (n + m) l = firstn n l ++ firstn m (skipn n l).
Proof.
  revert l. induction n as [|n IH]; intro l; [reflexivity|].
  destruct l as [|x l]; simpl.
  - now rewrite firstn_nil.
  - now rewrite IH.
Qed.

Lemma slice_app (off n m : nat) (c : list byte) :
  slice off n c ++ slice (off + n) m c = slice off (n + m) c.
Proof.
  unfold slice. rewrite firstn_plus, skipn_skipn.
  now rewrite (Nat.add_comm n off).
Qed.

Lemma field_firstn (off len n : nat) (c : list byte) :
  (off + len <= n)%nat -> field off len (firstn n c) = field off len c.
Proof. intro H. unfold field. now rewrite slice_firstn. Qed.

Lemma read_all (size : Z) (path : string) (fd : list byte) :
  size <= Z.of_nat (length fd) ->
  SnapBuildRestoreContents size path fd
  = OK (firstn (Z.to_nat size) fd, skipn (Z.to_nat size) fd).
Proof.
  intro H. unfold SnapBuildRestoreContents.
  destruct (Z.ltb_spec (Z.of_nat (length fd)) size); [lia|reflexivity].
Qed.

Lemma read_short (size : Z) (path : string) (fd : list byte) :
  Z.of_nat (length fd) < size ->
  SnapBuildRestoreContents size path fd
  = truncated path (Z.of_nat (length fd)) size.
Proof.
  intro H. unfold SnapBuildRestoreContents.
  destruct (Z.ltb_spec (Z.of_nat (length fd)) size); [reflexivity|lia].
Qed.

Lemma array_bytes_range (xcnt : Z) : 0 <= array_bytes xcnt < SIZE_MAX_plus_1.
Proof.
  unfold array_bytes, SIZE_MAX_plus_1.
  destruct (xcnt >? 0); [apply Z.mod_pos_bound|]; lia.
Qed.

Lemma read_array_block (cnt : Z) (set : pointer -> SnapBuild -> SnapBuild)
      (b : SnapBuild) (crc : Z) (path : string) (fd : list byte) :
  (if cnt >? 0 then
     let sz := (sizeof_TransactionId * cnt) mod SIZE_MAX_plus_1 in
     _ <- MemoryContextAllocZero sz ;;
     xip <- SnapBuildRestoreContents sz path ;;
     ret (set (Xids (xids_of_bytes xip)) b, COMP_CRC32C crc xip)
   else ret (b, crc)) fd
  = if array_bytes cnt >? MaxAllocSize then too_large (array_bytes cnt)
    else if Z.of_nat (length fd) <? array_bytes cnt then
      truncated path (Z.of_nat (length fd)) (array_bytes cnt)
    else
      let xip := firstn (Z.to_nat (array_bytes cnt)) fd in
      OK ((if cnt >? 0 then set (Xids (xids_of_bytes xip)) b else b,
           COMP_CRC32C crc xip),
          skipn (Z.to_nat (array_bytes cnt)) fd).
Proof.
  unfold array_bytes.
  destruct (cnt >? 0) eqn:Hc.
  - cbv zeta. set (sz := (sizeof_TransactionId * cnt) mod SIZE_MAX_plus_1).
    unfold bind, MemoryContextAllocZero.
    destruct (sz >? MaxAllocSize); [reflexivity|].
    unfold ret at 1.
    destruct (Z.ltb_spec (Z.of_nat (length fd)) sz) as [Hs|Hl].
    + now rewrite read_short.
    + now rewrite read_all.
  - change (0 >? MaxAllocSize) with false. cbv iota.
    destruct (Z.ltb_spec (Z.of_nat (length fd)) 0) as [Hs|Hl]; [lia|].
    reflexivity.
Qed.

Lemma validate_opened_outcome (f : open_file) (path : string) :
  validate_opened f path (contents f)
  = match outcome f path with
    | OK od => OK (od, skipn (Z.to_nat (record_end (contents f))) (contents f))
    | Raise e => Raise e
    end.
Proof.
  unfold validate_opened, outcome.
  set (c := contents f).
  unfold bind at 1.
  destruct (Z.ltb_spec (Z.of_nat (length c)) 16) as [Hs|Hl].
  { rewrite read_short by (unfold SnapBuildOnDiskConstantSize; lia). reflexivity. }
  rewrite read_all by (unfold SnapBuildOnDiskConstantSize; lia).
  unfold SnapBuildOnDiskConstantSize, SnapBuildOnDiskNotChecksummedSize.
  change (Z.to_nat 16) with 16%nat. change (Z.to_nat 8) with 8%nat.
  change (Z.to_nat (16 - 8)) with 8%nat.
  rewrite !field_firstn by lia.
  rewrite slice_firstn by lia.
  destruct (negb (field 0 4 c =? SNAPBUILD_MAGIC)); [reflexivity|].
  destruct (negb (field 8 4 c =? SNAPBUILD_VERSION)); [reflexivity|].
  unfold bind at 1.
  assert (Hlen16 : Z.of_nat (length (skipn 16 c)) = Z.of_nat (length c) - 16).
  { rewrite length_skipn. lia. }
  unfold sizeof_SnapBuild.
  destruct (Z.ltb_spec (Z.of_nat (length c) - 16) 128) as [Hs|Hl2].
  { rewrite read_short by lia. now rewrite Hlen16. }
  rewrite read_all by lia.
  change (Z.to_nat 128) with 128%nat.
  rewrite skipn_skipn. change (128 + 16)%nat with 144%nat.
  change (firstn 128 (skipn 16 c)) with (slice 16 128 c).
  unfold bind at 1.
  rewrite read_array_block.
  change (committed_xcnt (set_context (Context "logicalsnapshot inspect context")
            (SnapBuild_of_bytes (slice 16 128 c))))
    with (committed_xcnt (raw_builder c)).
  change (array_bytes (committed_xcnt (raw_builder c))) with (committed_bytes c).
  assert (Hlen144 : Z.of_nat (length (skipn 144 c)) = Z.of_nat (length c) - 144).
  { rewrite length_skipn. lia. }
  rewrite Hlen144.
  destruct (committed_bytes c >? MaxAllocSize); [reflexivity|].
  destruct (Z.ltb_spec (Z.of_nat (length c) - 144) (committed_bytes c))
    as [Hs|Hl3]; [reflexivity|].
  cbv beta iota zeta.
  pose proof (array_bytes_range (committed_xcnt (raw_builder c))) as Rc.
  fold (committed_bytes c) in Rc.
  rewrite skipn_skipn.
  change (firstn (Z.to_nat (committed_bytes c)) (skipn 144 c))
    with (committed_array c).
  unfold bind at 1.
  rewrite read_array_block.
  match goal with
  | |- context [catchange_xcnt (if ?t then ?x else ?y)] =>
      replace (catchange_xcnt (if t then x else y))
        with (catchange_xcnt (raw_builder c)) by (destruct t; reflexivity)
  end.
  change (array_bytes (catchange_xcnt (raw_builder c))) with (catchange_bytes c).
  pose proof (array_bytes_range (catchange_xcnt (raw_builder c))) as Rk.
  fold (catchange_bytes c) in Rk.
  assert (Hlen3 : Z.of_nat (length (skipn (Z.to_nat (committed_bytes c) + 144) c))
                  = Z.of_nat (length c) - 144 - committed_bytes c).
  { rewrite length_skipn. lia. }
  rewrite Hlen3.
  destruct (catchange_bytes c >? MaxAllocSize); [reflexivity|].
  destruct (Z.ltb_spec (Z.of_nat (length c) - 144 - committed_bytes c)
              (catchange_bytes c)) as [Hs|Hl4]; [reflexivity|].
  cbv beta iota zeta.
  unfold bind at 1, CloseTransientFile.
  destruct (close_errno f) as [errno|]; [reflexivity|].
  unfold ret at 1.
  rewrite (Nat.add_comm (Z.to_nat (committed_bytes c)) 144).
  change (firstn (Z.to_nat (catchange_bytes c))
            (skipn (144 + Z.to_nat (committed_bytes c)) c))
    with (catchange_array c).
  assert (Hcov : COMP_CRC32C
                   (COMP_CRC32C
                      (COMP_CRC32C (COMP_CRC32C INIT_CRC32C (slice 8 8 c))
                         (slice 16 128 c)) (committed_array c))
                   (catchange_array c)
                 = COMP_CRC32C INIT_CRC32C (covered c)).
  { rewrite !COMP_CRC32C_app. f_equal. rewrite ?app_assoc.
    unfold committed_array, catchange_array, covered, record_end.
    rewrite (slice_app 8 8 128 c : slice 8 8 c ++ slice 16 128 c = _).
    rewrite (slice_app 8 (8 + 128) _ c
             : slice 8 (8 + 128) c ++ slice 144 _ c = _).
    rewrite (slice_app 8 (8 + 128 + Z.to_nat (committed_bytes c)) _ c
             : _ ++ slice (144 + Z.to_nat (committed_bytes c)) _ c = _).
    f_equal. lia. }
  rewrite Hcov. fold (crc32c (covered c)).
  assert (Hb : (if catchange_xcnt (raw_builder c) >? 0
                then set_catchange_xip (Xids (xids_of_bytes (catchange_array c)))
                       (if committed_xcnt (raw_builder c) >? 0
                        then set_committed_xip
                               (Xids (xids_of_bytes (committed_array c)))
                               (set_context
                                  (Context "logicalsnapshot inspect context")
                                  (SnapBuild_of_bytes (slice 16 128 c)))
                        else set_context
                               (Context "logicalsnapshot inspect context")
                               (SnapBuild_of_bytes (slice 16 128 c)))
                else if committed_xcnt (raw_builder c) >? 0
                     then set_committed_xip
                            (Xids (xids_of_bytes (committed_array c)))
                            (set_context
                               (Context "logicalsnapshot inspect context")
                               (SnapBuild_of_bytes (slice 16 128 c)))
                     else set_context
                            (Context "logicalsnapshot inspect context")
                            (SnapBuild_of_bytes (slice 16 128 c)))
               = restored_builder c).
  { unfold restored_builder, attach. cbv zeta.
    change (committed_xcnt (set_context (Context "logicalsnapshot inspect context")
            (raw_builder c)))
      with (committed_xcnt (raw_builder c)).
    destruct (committed_xcnt (raw_builder c) >? 0); reflexivity. }
  rewrite Hb.
  rewrite skipn_skipn.
  replace (Z.to_nat (catchange_bytes c) + (144 + Z.to_nat (committed_bytes c)))%nat
    with (Z.to_nat (record_end c)) by (unfold record_end; lia).
  destruct (negb (EQ_CRC32C (crc32c (covered c)) (field 4 4 c))); reflexivity.
Qed.

Lemma committed_bytes_range (c : list byte) :
  0 <= committed_bytes c < SIZE_MAX_plus_1.
Proof. apply array_bytes_range. Qed.

Lemma catchange_bytes_range (c : list byte) :
  0 <= catchange_bytes c < SIZE_MAX_plus_1.
Proof. apply array_bytes_range. Qed.

Lemma outcome_reaches (f : open_file) (path : string) :
  reaches_checksum f ->
  outcome f path
  = if negb (EQ_CRC32C (crc32c (covered (contents f))) (field 4 4 (contents f)))
    then Raise (ERROR ERRCODE_DATA_CORRUPTED
                  (checksum_mismatch path (crc32c (covered (contents f)))
                     (field 4 4 (contents f))))
    else OK (accepted_ondisk (contents f)).
Proof.
  unfold reaches_checksum, outcome. cbv zeta.
  set (c := contents f).
  intros (Hm & Hv & Hc & Hk & He & Hcl).
  pose proof (committed_bytes_range c) as Rc.
  pose proof (catchange_bytes_range c) as Rk.
  unfold record_end in He.
  destruct (Z.ltb_spec (Z.of_nat (length c)) 16); [lia|].
  rewrite Hm, Hv, !Z.eqb_refl. cbn [negb].
  destruct (Z.ltb_spec (Z.of_nat (length c) - 16) 128); [lia|].
  destruct (Z.gtb_spec (committed_bytes c) MaxAllocSize); [lia|].
  destruct (Z.ltb_spec (Z.of_nat (length c) - 144) (committed_bytes c)); [lia|].
  destruct (Z.gtb_spec (catchange_bytes c) MaxAllocSize); [lia|].
  destruct (Z.ltb_spec (Z.of_nat (length c) - 144 - committed_bytes c)
              (catchange_bytes c)); [lia|].
  rewrite Hcl. rewrite <- Hm, <- Hv. reflexivity.
Qed.

Lemma outcome_reaches_inv (f : open_file) (path : string) :
  (exists od, outcome f path = OK od) \/
  (exists code p x y, outcome f path = Raise (ERROR code (checksum_mismatch p x y))) ->
  reaches_checksum f.
Proof.
  unfold reaches_checksum, outcome. cbv zeta.
  set (c := contents f).
  unfold truncated, too_large.
  intro H.
  destruct (Z.ltb_spec (Z.of_nat (length c)) 16);
    [destruct H as [(od & H)|(co & p & x & y & H)]; discriminate|].
  destruct (Z.eqb_spec (field 0 4 c) SNAPBUILD_MAGIC) as [Hm|];
    [|destruct H as [(od & H)|(co & p & x & y & H)]; discriminate].
  destruct (Z.eqb_spec (field 8 4 c) SNAPBUILD_VERSION) as [Hv|];
    [|destruct H as [(od & H)|(co & p & x & y & H)]; discriminate].
  cbn [negb] in H.
  destruct (Z.ltb_spec (Z.of_nat (length c) - 16) 128);
    [destruct H as [(od & H)|(co & p & x & y & H)]; discriminate|].
  destruct (Z.gtb_spec (committed_bytes c) MaxAllocSize);
    [destruct H as [(od & H)|(co & p & x & y & H)]; discriminate|].
  destruct (Z.ltb_spec (Z.of_nat (length c) - 144) (committed_bytes c));
    [destruct H as [(od & H)|(co & p & x & y & H)]; discriminate|].
  destruct (Z.gtb_spec (catchange_bytes c) MaxAllocSize);
    [destruct H as [(od & H)|(co & p & x & y & H)]; discriminate|].
  destruct (Z.ltb_spec (Z.of_nat (length c) - 144 - committed_bytes c)
              (catchange_bytes c));
    [destruct H as [(od & H)|(co & p & x & y & H)]; discriminate|].
  destruct (close_errno f);
    [destruct H as [(od & H)|(co & p & x & y & H)]; discriminate|].
  unfold record_end. repeat split; auto; lia.
Qed.

Lemma outcome_OK_inv (f : open_file) (path : string) (od : SnapBuildOnDisk) :
  outcome f path = OK od ->
  reaches_checksum f /\
  crc32c (covered (contents f)) = field 4 4 (contents f) /\
  od = accepted_ondisk (contents f).
Proof.
  intro H.
  assert (R : reaches_checksum f).
  { apply (outcome_reaches_inv f path). left. now exists od. }
  split; [exact R|].
  rewrite (outcome_reaches f path R) in H.
  destruct (EQ_CRC32C (crc32c (covered (contents f))) (field 4 4 (contents f)))
    eqn:E; cbn [negb] in H; [|discriminate].
  apply EQ_CRC32C_spec in E. split; [exact E|]. congruence.
Qed.

Lemma outcome_mismatch_inv (f : open_file) (path : string)
      (code : errcode) (p : string) (x y : Z) :
  outcome f path = Raise (ERROR code (checksum_mismatch p x y)) ->
  reaches_checksum f /\ code = ERRCODE_DATA_CORRUPTED /\ p = path /\
  x = crc32c (covered (contents f)) /\ y = field 4 4 (contents f) /\ x <> y.
Proof.
  intro H.
  assert (R : reaches_checksum f).
  { apply (outcome_reaches_inv f path). right. now exists code, p, x, y. }
  split; [exact R|].
  rewrite (outcome_reaches f path R) in H.
  destruct (EQ_CRC32C (crc32c (covered (contents f))) (field 4 4 (contents f)))
    eqn:E; cbn [negb] in H; [discriminate|].
  injection H as <- <- <- <-. repeat split; auto.
  intro Heq. apply EQ_CRC32C_spec in Heq. congruence.
Qed.

Lemma slice_change_outside (off len : nat) (pre post : list byte) (a b : byte) :
  (length pre < off \/ off + len <= length pre)%nat ->
  slice off len (pre ++ a :: post) = slice off len (pre ++ b :: post).
Proof.
  intros [H|H]; unfold slice.
  - rewrite !skipn_app, (skipn_all2 pre) by lia.
    destruct (off - length pre)%nat as [|k] eqn:E; [lia|]. reflexivity.
  - rewrite !skipn_app, !firstn_app, length_skipn.
    replace (len - (length pre - off))%nat with 0%nat by lia.
    replace (off - length pre)%nat with 0%nat by lia. reflexivity.
Qed.

Lemma slice_change_inside (off len : nat) (pre post : list byte) (a b : byte) :
  (off <= length pre < off + len)%nat ->
  exists P Q,
    slice off len (pre ++ a :: post) = P ++ a :: Q /\
    slice off len (pre ++ b :: post) = P ++ b :: Q.
Proof.
  intro H. exists (skipn off pre), (firstn (len - (length pre - off) - 1) post).
  unfold slice.
  rewrite !skipn_app, !firstn_app, length_skipn.
  replace (off - length pre)%nat with 0%nat by lia.
  rewrite (firstn_all2 (skipn off pre)) by (rewrite length_skipn; lia).
  destruct (len - (length pre - off))%nat as [|k] eqn:E; [lia|].
  cbn [skipn firstn]. replace (S k - 1)%nat with k by lia.
  split; reflexivity.
Qed.

Lemma slice_slice (off len o n : nat) (c : list byte) :
  (off + len <= n)%nat ->
  slice off len (slice o n c) = slice (off + o) len c.
Proof.
  intro H. unfold slice at 2. rewrite slice_firstn by lia.
  apply slice_skipn.
Qed.

Lemma committed_xcnt_field (c : list byte) :
  committed_xcnt (raw_builder c) = field 96 8 c.
Proof.
  unfold raw_builder, SnapBuild_of_bytes. cbn [committed_xcnt].
  unfold field. now rewrite slice_slice by lia.
Qed.

Lemma catchange_xcnt_field (c : list byte) :
  catchange_xcnt (raw_builder c) = field 128 8 c.
Proof.
  unfold raw_builder, SnapBuild_of_bytes. cbn [catchange_xcnt].
  unfold field. now rewrite slice_slice by lia.
Qed.

(** One byte of a file is replaced, at an offset that is in the record,
    past the member [version] and in neither count. *)
Lemma one_byte_changed (f : open_file) (path : string) (od : SnapBuildOnDisk)
      (pre post : list byte) (a b : byte) :
  outcome f path = OK od ->
  contents f = pre ++ a :: post ->
  a <> b ->
  12 <= Z.of_nat (length pre) < record_end (contents f) ->
  ~ (96 <= Z.of_nat (length pre) < 104) ->
  ~ (128 <= Z.of_nat (length pre) < 136) ->
  let c' := pre ++ b :: post in
  outcome (mkFile c' (close_errno f)) path
  = Raise (ERROR ERRCODE_DATA_CORRUPTED
             (checksum_mismatch path (crc32c (covered c')) (checksum od)))
  /\ crc32c (covered c') <> checksum od.
Proof.
  intros Hok Hc Hab Hpos Hn1 Hn2 c'.
  apply outcome_OK_inv in Hok. destruct Hok as (R & Hcrc & ->).
  destruct R as (Hm & Hv & Hcb & Hkb & He & Hcl).
  rewrite Hc in *. fold c'.
  set (c := pre ++ a :: post) in *.
  assert (Hf : forall off len, (off + len <= 12)%nat ->
                 field off len c' = field off len c).
  { intros off len H. unfold field, c, c'. f_equal.
    apply slice_change_outside. lia. }
  assert (Hcx : committed_bytes c' = committed_bytes c).
  { unfold committed_bytes. rewrite !committed_xcnt_field.
    unfold field, c, c'. do 2 f_equal. apply slice_change_outside. lia. }
  assert (Hkx : catchange_bytes c' = catchange_bytes c).
  { unfold catchange_bytes. rewrite !catchange_xcnt_field.
    unfold field, c, c'. do 2 f_equal. apply slice_change_outside. lia. }
  assert (Hre : record_end c' = record_end c).
  { unfold record_end. now rewrite Hcx, Hkx. }
  assert (Hlen : length c' = length c).
  { unfold c, c'. rewrite !length_app. reflexivity. }
  assert (R' : reaches_checksum (mkFile c' (close_errno f))).
  { unfold reaches_checksum. cbn [contents close_errno].
    rewrite !Hf, Hcx, Hkx, Hre, Hlen by lia. repeat split; assumption. }
  assert (Hne : crc32c (covered c') <> field 4 4 c).
  { rewrite <- Hcrc. unfold covered. rewrite Hre.
    destruct (slice_change_inside 8 (Z.to_nat (record_end c) - 8) pre post a b)
      as (P & Q & E1 & E2); [lia|].
    fold c in E1. fold c' in E2. rewrite E1, E2.
    unfold crc32c. intro E. apply FIN_CRC32C_inj in E.
    symmetry in E. revert E.
    apply COMP_CRC32C_one_byte; [apply INIT_CRC32C_range|exact Hab]. }
  cbn [checksum accepted_ondisk].
  split; [|exact Hne].
  rewrite (outcome_reaches _ path R'). cbn [contents].
  rewrite (Hf 4%nat 4%nat) by lia.
  destruct (EQ_CRC32C (crc32c (covered c')) (field 4 4 c)) eqn:E.
  - apply EQ_CRC32C_spec in E. contradiction.
  - reflexivity.
Qed.

Lemma slice_then_rest (off n : nat) (c : list byte) :
  slice off n c ++ skipn (off + n) c = skipn off c.
Proof.
  unfold slice. rewrite (Nat.add_comm off n), <- skipn_skipn.
  apply firstn_skipn.
Qed.

Lemma length_slice (off n : nat) (c : list byte) :
  (off + n <= length c)%nat -> length (slice off n c) = n.
Proof.
  intro H. unfold slice. rewrite length_firstn, length_skipn. lia.
Qed.

Lemma encode_field (off n : nat) (c : list byte) :
  (off + n <= length c)%nat -> encode_le n (field off n c) = slice off n c.
Proof.
  intro H. unfold field.
  rewrite <- (length_slice off n c H) at 1. apply encode_decode_le.
Qed.

Lemma attach_committed_xcnt (b : SnapBuild) (com cat : list byte) :
  committed_xcnt (attach b com cat) = committed_xcnt b.
Proof.
  unfold attach. cbv zeta.
  repeat match goal with |- context [if ?t then _ else _] => destruct t end;
    reflexivity.
Qed.

Lemma attach_catchange_xcnt (b : SnapBuild) (com cat : list byte) :
  catchange_xcnt (attach b com cat) = catchange_xcnt b.
Proof.
  unfold attach. cbv zeta.
  repeat match goal with |- context [if ?t then _ else _] => destruct t end;
    reflexivity.
Qed.

(** The layout of a file that the reader accepts. *)
Lemma accepted_file_layout (f : open_file) (path : string)
      (od : SnapBuildOnDisk) :
  outcome f path = OK od ->
  exists blk com cat rest,
    contents f
    = encode_le 4 (magic od) ++ encode_le 4 (checksum od)
      ++ encode_le 4 (version od) ++ encode_le 4 (length_ od)
      ++ blk ++ com ++ cat ++ rest /\
    Z.of_nat (length blk) = sizeof_SnapBuild /\
    Z.of_nat (length com) = array_bytes (committed_xcnt (builder od)) /\
    Z.of_nat (length cat) = array_bytes (catchange_xcnt (builder od)) /\
    Z.of_nat (length rest) = Z.of_nat (length (contents f)) - record_end (contents f) /\
    builder od = attach (SnapBuild_of_bytes blk) com cat /\
    checksum od
    = crc32c (encode_le 4 (version od) ++ encode_le 4 (length_ od)
              ++ blk ++ com ++ cat).
Proof.
  intro H. apply outcome_OK_inv in H. destruct H as (R & Hcrc & ->).
  destruct R as (Hm & Hv & Hcb & Hkb & He & Hcl).
  set (c := contents f) in *.
  pose proof (committed_bytes_range c) as Rc.
  pose proof (catchange_bytes_range c) as Rk.
  assert (Hend : Z.to_nat (record_end c)
                 = (144 + Z.to_nat (committed_bytes c)
                    + Z.to_nat (catchange_bytes c))%nat).
  { unfold record_end. lia. }
  assert (Hlen : (144 + Z.to_nat (committed_bytes c)
                  + Z.to_nat (catchange_bytes c) <= length c)%nat).
  { unfold record_end in He. lia. }
  exists (slice 16 128 c), (committed_array c), (catchange_array c),
    (skipn (Z.to_nat (record_end c)) c).
  cbn [magic checksum version length_ builder accepted_ondisk].
  rewrite !encode_field by lia.
  unfold restored_builder.
  rewrite attach_committed_xcnt, attach_catchange_xcnt.
  fold (committed_bytes c). fold (catchange_bytes c).
  unfold committed_array, catchange_array.
  rewrite !length_slice by lia. rewrite length_skipn.
  assert (Hcov : covered c
                 = slice 8 4 c ++ slice 12 4 c ++ slice 16 128 c
                   ++ slice 144 (Z.to_nat (committed_bytes c)) c
                   ++ slice (144 + Z.to_nat (committed_bytes c))
                        (Z.to_nat (catchange_bytes c)) c).
  { rewrite !app_assoc.
    rewrite (slice_app 8 4 4 c : slice 8 4 c ++ slice 12 4 c = _).
    rewrite (slice_app 8 (4 + 4) 128 c : _ ++ slice 16 128 c = _).
    rewrite (slice_app 8 (4 + 4 + 128) _ c : _ ++ slice 144 _ c = _).
    rewrite (slice_app 8 (4 + 4 + 128 + Z.to_nat (committed_bytes c)) _ c
             : _ ++ slice (144 + Z.to_nat (committed_bytes c)) _ c = _).
    unfold covered. f_equal. lia. }
  repeat split; try reflexivity; try lia.
  - rewrite Hend.
    rewrite (slice_then_rest (144 + Z.to_nat (committed_bytes c))
               (Z.to_nat (catchange_bytes c)) c).
    rewrite (slice_then_rest 144 (Z.to_nat (committed_bytes c)) c
             : _ ++ skipn (144 + _) c = _).
    rewrite (slice_then_rest 16 128 c : _ ++ skipn 144 c = _).
    rewrite (slice_then_rest 12 4 c : _ ++ skipn 16 c = _).
    rewrite (slice_then_rest 8 4 c : _ ++ skipn 12 c = _).
    rewrite (slice_then_rest 4 4 c : _ ++ skipn 8 c = _).
    rewrite (slice_then_rest 0 4 c : _ ++ skipn 4 c = _).
    reflexivity.
  - rewrite <- Hcov. symmetry. exact Hcrc.
Qed.

Lemma ValidateSnapshotFile_opened (fs : filesystem) (lsn : Z) (path : string)
      (f : open_file) :
  fs path = Opened f -> ValidateSnapshotFile fs lsn path = outcome f path.
Proof.
  intro H. unfold ValidateSnapshotFile. rewrite H, validate_opened_outcome.
  destruct (outcome f path); reflexivity.
Qed.

End ReaderFacts.

(* ================================================================== *)
(** ** Example files *)

Module Examples.
Import Bytes CRC32C Layout Reader ReaderFacts.

(** The smallest snapshot file: a state block of zeros, no array. *)
Definition zero_file : list byte :=
  [x01; xe0; xa1; x51]          (* magic 0x51A1E001 *)
  ++ [x4c; x5a; x0c; x74]       (* checksum 0x740C5A4C *)
  ++ [x06; x00; x00; x00]       (* version 6 *)
  ++ [x80; x00; x00; x00]       (* length *)
  ++ repeat x00 128.


(** [zero_file] with the low byte of [catchange.xcnt] (offset 128) set. *)
Definition zero_file_catchange_1 : list byte :=
  firstn 128 zero_file ++ x01 :: skipn 129 zero_file.

(** [zero_file] with the low byte of [xmin] (offset 32) set to 100. *)
Definition zero_file_xmin_100 : list byte :=
  firstn 32 zero_file ++ x64 :: skipn 33 zero_file.

(** [zero_file] with another magic number, and with another version. *)
Definition zero_file_bad_magic : list byte := x02 :: skipn 1 zero_file.

(** [zero_file] followed by one more byte. *)
Definition zero_file_and_more : list byte := zero_file ++ [xff].

(** A file system that holds one file, under every name. *)
Definition only (c : list byte) : filesystem :=
  fun _ => Opened (mkFile c None).

(** A file system without any file, and one that denies access (EACCES). *)
Definition no_file : filesystem := fun _ => OpenFailed ENOENT.
Definition no_access : filesystem := fun _ => OpenFailed 13.

Definition path0 : string := "pg_logical/snapshots/0-0.snap".

Example snapshot_path_0 : snapshot_path 0 = path0.
Proof. reflexivity. Qed.

Example snapshot_path_hi_lo :
  snapshot_path 0x1A2B0000F00D = "pg_logical/snapshots/1A2B-F00D.snap"%string.
Proof. vm_compute. reflexivity. Qed.

Example zero_file_accepted :
  ValidateSnapshotFile (only zero_file) 0 path0
  = OK (accepted_ondisk zero_file).
Proof. vm_compute. reflexivity. Qed.

Example zero_file_meta :
  pg_get_logical_snapshot_meta (only zero_file) 0
  = OK (mkMeta 0x51A1E001 0x740C5A4C 6).
Proof. vm_compute. reflexivity. Qed.

End Examples.

(* ================================================================== *)
(** ** Properties of the reader *)

Import Bytes CRC32C Layout Reader ReaderFacts.

(** [c'] is [c] with the byte at offset [pos] replaced by another one. *)
Definition one_byte_replaced (c c' : list byte) (pos : Z) : Prop :=
  exists pre a b post,
    c = pre ++ a :: post /\ c' = pre ++ b :: post /\ a <> b /\
    Z.of_nat (length pre) = pos.

(** The offsets in the file of the members [committed.xcnt] and
    [catchange.xcnt]. *)
Definition in_a_count (pos : Z) : Prop :=
  96 <= pos < 104 \/ 128 <= pos < 136.

Lemma outcome_not_file_does_not_exist (f : open_file) (path : string)
      (code : errcode) (p : string) :
  outcome f path <> Raise (ERROR code (file_does_not_exist p)).
Proof.
  unfold outcome, truncated, too_large. cbv zeta.
  repeat match goal with
         | |- context [if ?t then _ else _] => destruct t
         | |- context [match close_errno f with _ => _ end] =>
             destruct (close_errno f)
         end; discriminate.
Qed.

(** C9: opening a snapshot file that does not exist raises the error
    "file does not exist", which names the path; every other failure to
    open raises a file-access error that carries the system's error; the
    first error is raised in no other situation, and the reader returns a
    state only for a file that it could open. *)
Theorem C9_missing_file_reported_as_such
        (fs : filesystem) (lsn : Z) (path : string) :
  (forall errno, fs path = OpenFailed errno -> errno = ENOENT ->
     ValidateSnapshotFile fs lsn path
     = Raise (ERROR ERRCODE_INTERNAL_ERROR (file_does_not_exist path))) /\
  (forall errno, fs path = OpenFailed errno -> errno <> ENOENT ->
     ValidateSnapshotFile fs lsn path
     = Raise (ERROR (errcode_for_file_access errno)
                (could_not_open_file path errno))) /\
  (forall code p,
     ValidateSnapshotFile fs lsn path
     = Raise (ERROR code (file_does_not_exist p)) ->
     fs path = OpenFailed ENOENT /\ p = path) /\
  (forall od, ValidateSnapshotFile fs lsn path = OK od ->
     exists f, fs path = Opened f).
Proof.
  split; [|split; [|split]].
  - intros errno Hfs ->. unfold ValidateSnapshotFile. now rewrite Hfs.
  - intros errno Hfs Hne. unfold ValidateSnapshotFile. rewrite Hfs.
    destruct (Z.eqb_spec errno ENOENT); [contradiction|reflexivity].
  - intros code p H.
    destruct (fs path) as [f|errno] eqn:Hfs.
    + rewrite (ValidateSnapshotFile_opened fs lsn path f Hfs) in H.
      now apply outcome_not_file_does_not_exist in H.
    + unfold ValidateSnapshotFile in H. rewrite Hfs in H.
      destruct (Z.eqb_spec errno ENOENT); [|discriminate].
      subst errno. split; congruence.
  - intros od H.
    destruct (fs path) as [f|errno] eqn:Hfs; [now exists f|].
    unfold ValidateSnapshotFile in H. rewrite Hfs in H.
    destruct (errno =? ENOENT); discriminate.
Qed.

Lemma C9_witness :
  ValidateSnapshotFile Examples.no_file 0 Examples.path0
  = Raise (ERROR ERRCODE_INTERNAL_ERROR (file_does_not_exist Examples.path0))
  /\
  ValidateSnapshotFile Examples.no_access 0 Examples.path0
  = Raise (ERROR (errcode_for_file_access 13)
             (could_not_open_file Examples.path0 13)).
Proof.
  split.
  - apply (proj1 (C9_missing_file_reported_as_such
                    Examples.no_file 0 Examples.path0) ENOENT);
      reflexivity.
  - apply (proj1 (proj2 (C9_missing_file_reported_as_such
                           Examples.no_access 0 Examples.path0)) 13);
      [reflexivity|discriminate].
Defined.

Lemma one_byte_rejected (fs fs' : filesystem) (lsn : Z) (path : string)
      (f : open_file) (od : SnapBuildOnDisk) (c' : list byte) (pos : Z) :
  fs path = Opened f ->
  ValidateSnapshotFile fs lsn path = OK od ->
  one_byte_replaced (contents f) c' pos ->
  12 <= pos < record_end (contents f) ->
  ~ in_a_count pos ->
  fs' path = Opened (mkFile c' (close_errno f)) ->
  exists computed,
    computed <> checksum od /\
    ValidateSnapshotFile fs' lsn path
    = Raise (ERROR ERRCODE_DATA_CORRUPTED
               (checksum_mismatch path computed (checksum od))).
Proof.
  intros Hfs Hok (pre & a & b & post & Hc & Hc' & Hab & Hpos) Hin Hcnt Hfs'.
  rewrite (ValidateSnapshotFile_opened fs lsn path f Hfs) in Hok.
  rewrite (ValidateSnapshotFile_opened fs' lsn path _ Hfs').
  subst c' pos. unfold in_a_count in Hcnt.
  destruct (one_byte_changed f path od pre post a b Hok Hc Hab Hin)
    as [E Hne]; [lia|lia|].
  exists (crc32c (covered (pre ++ b :: post))). split; assumption.
Qed.


(** The checksum of [zero_file_xmin_100], which the stored one no longer
    matches. *)
Example zero_file_xmin_100_rejected :
  ValidateSnapshotFile (Examples.only Examples.zero_file_xmin_100) 0
    Examples.path0
  = Raise (ERROR ERRCODE_DATA_CORRUPTED
             (checksum_mismatch Examples.path0 0x04EA57D3 0x740C5A4C)).
Proof. vm_compute. reflexivity. Qed.



(** C10, as amended: the metadata function validates the whole file
    before it looks at the header members, so it fails with the error of
    the validation whenever that fails and returns the three members only
    for a file that got as far as the checksum comparison and passed it;
    in particular, when one byte after the header, inside the record and
    outside the two counts, is replaced in an accepted file, the metadata
    query fails with the checksum-mismatch error. *)
Theorem C10_meta_validates_whole_file (fs : filesystem) (lsn : Z) :
  let path := snapshot_path lsn in
  (forall e, ValidateSnapshotFile fs lsn path = Raise e ->
     pg_get_logical_snapshot_meta fs lsn = Raise e) /\
  (forall row, pg_get_logical_snapshot_meta fs lsn = OK row ->
     exists f,
       fs path = Opened f /\ reaches_checksum f /\
       crc32c (covered (contents f)) = field 4 4 (contents f) /\
       row = mkMeta (Int32GetDatum (field 0 4 (contents f)))
                    (Int32GetDatum (field 4 4 (contents f)))
                    (Int32GetDatum (field 8 4 (contents f)))) /\
  (forall f od c' pos fs',
     fs path = Opened f ->
     ValidateSnapshotFile fs lsn path = OK od ->
     one_byte_replaced (contents f) c' pos ->
     16 <= pos < record_end (contents f) ->
     ~ in_a_count pos ->
     fs' path = Opened (mkFile c' (close_errno f)) ->
     exists computed,
       computed <> checksum od /\
       pg_get_logical_snapshot_meta fs' lsn
       = Raise (ERROR ERRCODE_DATA_CORRUPTED
                  (checksum_mismatch path computed (checksum od)))).
Proof.
  intro path. split; [|split].
  - intros e H. unfold pg_get_logical_snapshot_meta. fold path.
    now rewrite H.
  - intros row H. unfold pg_get_logical_snapshot_meta in H. fold path in H.
    destruct (ValidateSnapshotFile fs lsn path) as [od|e] eqn:V;
      [|discriminate].
    destruct (fs path) as [f|errno] eqn:Hfs.
    + rewrite (ValidateSnapshotFile_opened fs lsn path f Hfs) in V.
      apply outcome_OK_inv in V. destruct V as (R & Hcrc & ->).
      exists f. repeat split; try assumption; try apply R.
      injection H as <-. reflexivity.
    + unfold ValidateSnapshotFile in V. rewrite Hfs in V.
      destruct (errno =? ENOENT); discriminate.
  - intros f od c' pos fs' Hfs Hok Hrep Hpos Hcnt Hfs'.
    destruct (one_byte_rejected fs fs' lsn path f od c' pos
                Hfs Hok Hrep ltac:(lia) Hcnt Hfs') as (x & Hne & E).
    exists x. split; [exact Hne|].
    unfold pg_get_logical_snapshot_meta. fold path. now rewrite E.
Qed.

Lemma C10_witness :
  pg_get_logical_snapshot_meta
    (Examples.only Examples.zero_file_catchange_1) 0
  = Raise (ERROR ERRCODE_DATA_CORRUPTED
             (could_not_read_file Examples.path0 0 4))
  /\
  exists computed,
    computed <> checksum (accepted_ondisk Examples.zero_file) /\
    pg_get_logical_snapshot_meta
      (Examples.only Examples.zero_file_xmin_100) 0
    = Raise (ERROR ERRCODE_DATA_CORRUPTED
               (checksum_mismatch Examples.path0 computed
                  (checksum (accepted_ondisk Examples.zero_file)))).
Proof.
  split.
  - apply (proj1 (C10_meta_validates_whole_file
                    (Examples.only Examples.zero_file_catchange_1) 0)).
    vm_compute. reflexivity.
  - apply (proj2 (proj2 (C10_meta_validates_whole_file
                           (Examples.only Examples.zero_file) 0))
             (mkFile Examples.zero_file None)
             (accepted_ondisk Examples.zero_file)
             Examples.zero_file_xmin_100 32
             (Examples.only Examples.zero_file_xmin_100)).
    + reflexivity.
    + vm_compute. reflexivity.
    + exists (firstn 32 Examples.zero_file), x00, x64,
        (skipn 33 Examples.zero_file).
      repeat split; (reflexivity || discriminate).
    + vm_compute. split; [discriminate|reflexivity].
    + unfold in_a_count. lia.
    + reflexivity.
Defined.

(** C10, as stated, fails where the corrupted byte is part of a count: the
    accepted [zero_file] with the low byte of [catchange.xcnt] changed
    makes the metadata query fail, but with the error of a file that ends
    too early and not with a checksum mismatch. *)
Lemma C10_counterexample :
  pg_get_logical_snapshot_meta (Examples.only Examples.zero_file) 0
  = OK (mkMeta 0x51A1E001 0x740C5A4C 6)
  /\ Examples.zero_file
     = firstn 128 Examples.zero_file ++ x00 :: skipn 129 Examples.zero_file
  /\ Examples.zero_file_catchange_1
     = firstn 128 Examples.zero_file ++ x01 :: skipn 129 Examples.zero_file
  /\ pg_get_logical_snapshot_meta
       (Examples.only Examples.zero_file_catchange_1) 0
     = Raise (ERROR ERRCODE_DATA_CORRUPTED
                (could_not_read_file Examples.path0 0 4)).
Proof. repeat split; vm_compute; reflexivity. Qed.

(** The reader does not look past the record: bytes that follow the second
    array are neither read nor part of the checksum. *)
Example bytes_after_the_record_are_not_read :
  ValidateSnapshotFile (Examples.only Examples.zero_file_and_more) 0
    Examples.path0
  = ValidateSnapshotFile (Examples.only Examples.zero_file) 0 Examples.path0.
Proof. vm_compute. reflexivity. Qed.

(* ================================================================== *)
(** ** The writer, and what the reader makes of its files *)

Module Writer.
Import Bytes CRC32C Layout Reader ReaderFacts.


(** The ids behind an array member. *)
Definition ids (p : pointer) : list Z :=
  match p with
  | Xids l => l
  | _ => []
  end.

(** Modelled from the spec: sorting in [xidComparator] order, which
    compares ids as plain unsigned integers. *)
Fixpoint insert_xid (x : Z) (l : list Z) : list Z :=
  match l with
  | [] => [x]
  | y :: l' => if x <=? y then x :: l else y :: insert_xid x l'
  end.

Definition sort_xids (l : list Z) : list Z := fold_right insert_xid [] l.

(** An array of [TransactionId] as it lies in memory. *)
Definition bytes_of_xids (l : list Z) : list byte :=
  flat_map (encode_le 4) l.

(** The [sizeof(SnapBuild)] bytes of a [SnapBuild] in memory: every member
    at its offset, padding zeroed, and [addr p] for the bits of a pointer
    member [p]. *)
Definition SnapBuild_to_bytes (addr : pointer -> Z) (b : SnapBuild)
  : list byte :=
  encode_le 4 (state b) ++ repeat x00 4
  ++ encode_le 8 (addr (context b))
  ++ encode_le 4 (xmin b)
  ++ encode_le 4 (xmax b)
  ++ encode_le 8 (start_decoding_at b)
  ++ encode_le 8 (two_phase_at b)
  ++ encode_le 4 (initial_xmin_horizon b)
  ++ encode_le 1 (building_full_snapshot b)
  ++ encode_le 1 (in_slot_creation b) ++ repeat x00 2
  ++ encode_le 8 (addr (snapshot b))
  ++ encode_le 8 (last_serialized_snapshot b)
  ++ encode_le 8 (addr (reorder b))
  ++ encode_le 4 (next_phase_at b) ++ repeat x00 4
  ++ encode_le 8 (committed_xcnt b)
  ++ encode_le 8 (committed_xcnt_space b)
  ++ encode_le 1 (committed_includes_all_transactions b) ++ repeat x00 7
  ++ encode_le 8 (addr (committed_xip b))
  ++ encode_le 8 (catchange_xcnt b)
  ++ encode_le 8 (addr (catchange_xip b)).

(** Modelled from the spec: what follows the constant-size header, the
    state block, the committed ids, sorted, then the catalog-change ids. *)
Definition payload (addr : pointer -> Z) (b : SnapBuild) : list byte :=
  SnapBuild_to_bytes addr b
  ++ bytes_of_xids (sort_xids (ids (committed_xip b)))
  ++ bytes_of_xids (ids (catchange_xip b)).

(** Modelled from the spec: the write path of section 4.3, which the
    builder performs at a serialization point ([SnapBuildSerialize] of
    snapbuild.c, reached from [SnapBuildSerializationPoint]; its body is
    not among the sources).  The file is the constant header (magic,
    checksum, version, length of what follows the header), the state
    block, the committed ids, sorted immediately before writing, and the
    catalog-change ids; the checksum is computed over everything that
    follows the checksum member.  The state block is the struct of
    snapbuild.h in the layout of [Layout.SnapBuild_of_bytes]. *)
Definition SnapBuildSerialize (addr : pointer -> Z) (b : SnapBuild)
  : list byte :=
  let body := payload addr b in
  let checksummed :=
    encode_le 4 SNAPBUILD_VERSION
    ++ encode_le 4 (Z.of_nat (length body)) ++ body in
  encode_le 4 SNAPBUILD_MAGIC ++ encode_le 4 (crc32c checksummed)
  ++ checksummed.

Definition is_xid (x : Z) : Prop := 0 <= x < 2 ^ 32.

(** A builder state that can be in memory: every member fits its C type,
    each count is the length of its array, the arrays are small enough to
    have been allocated, and the catalog-change ids ascend. *)
Record valid_builder (b : SnapBuild) : Prop := {
  valid_state : - 2 ^ 31 <= state b < 2 ^ 31;
  valid_xmin : is_xid (xmin b);
  valid_xmax : is_xid (xmax b);
  valid_start_decoding_at : 0 <= start_decoding_at b < 2 ^ 64;
  valid_two_phase_at : 0 <= two_phase_at b < 2 ^ 64;
  valid_initial_xmin_horizon : is_xid (initial_xmin_horizon b);
  valid_building_full_snapshot : 0 <= building_full_snapshot b <= 1;
  valid_in_slot_creation : 0 <= in_slot_creation b <= 1;
  valid_last_serialized_snapshot : 0 <= last_serialized_snapshot b < 2 ^ 64;
  valid_next_phase_at : is_xid (next_phase_at b);
  valid_committed_xcnt :
    committed_xcnt b = Z.of_nat (length (ids (committed_xip b)));
  valid_committed_xcnt_space : 0 <= committed_xcnt_space b < 2 ^ 64;
  valid_includes_all : 0 <= committed_includes_all_transactions b <= 1;
  valid_committed_xip : Forall is_xid (ids (committed_xip b));
  valid_committed_size : sizeof_TransactionId * committed_xcnt b <= MaxAllocSize;
  valid_catchange_xcnt :
    catchange_xcnt b = Z.of_nat (length (ids (catchange_xip b)));
  valid_catchange_xip : Forall is_xid (ids (catchange_xip b));
  valid_catchange_size : sizeof_TransactionId * catchange_xcnt b <= MaxAllocSize;
  valid_catchange_sorted : StronglySorted Z.lt (ids (catchange_xip b))
}.

(** Two builder states that hold the same values, whatever their
    addresses: the scalar members, the counts, and the ids, those of the
    committed set in [xidComparator] order. *)
Record same_logical_state (b b' : SnapBuild) : Prop := {
  same_state : state b' = state b;
  same_xmin : xmin b' = xmin b;
  same_xmax : xmax b' = xmax b;
  same_start_decoding_at : start_decoding_at b' = start_decoding_at b;
  same_two_phase_at : two_phase_at b' = two_phase_at b;
  same_initial_xmin_horizon : initial_xmin_horizon b' = initial_xmin_horizon b;
  same_building_full_snapshot :
    building_full_snapshot b' = building_full_snapshot b;
  same_in_slot_creation : in_slot_creation b' = in_slot_creation b;
  same_last_serialized_snapshot :
    last_serialized_snapshot b' = last_serialized_snapshot b;
  same_next_phase_at : next_phase_at b' = next_phase_at b;
  same_committed_xcnt : committed_xcnt b' = committed_xcnt b;
  same_committed_xcnt_space : committed_xcnt_space b' = committed_xcnt_space b;
  same_includes_all :
    committed_includes_all_transactions b'
    = committed_includes_all_transactions b;
  same_committed_xip :
    sort_xids (ids (committed_xip b')) = sort_xids (ids (committed_xip b));
  same_catchange_xcnt : catchange_xcnt b' = catchange_xcnt b;
  same_catchange_xip : ids (catchange_xip b') = ids (catchange_xip b)
}.

(** A file with [len] bytes at offset [off] blanked. *)
Definition erase (off len : nat) (bs : list byte) : list byte :=
  firstn off bs ++ repeat x00 len ++ skipn (off + len) bs.

(** A file without the members that depend on where the builder lies in
    memory, the five pointer members, and without the checksum, which
    covers them. *)
Definition position_independent (bs : list byte) : list byte :=
  erase 136 8 (erase 120 8 (erase 80 8 (erase 64 8 (erase 24 8
    (erase 4 4 bs))))).

End Writer.

Import Writer.

Lemma length_bytes_of_xids (l : list Z) :
  length (bytes_of_xids l) = (4 * length l)%nat.
Proof.
  induction l as [|x l IH]; [reflexivity|].
  unfold bytes_of_xids in *. cbn [flat_map]. rewrite length_app, IH.
  rewrite length_encode_le. cbn [length]. lia.
Qed.

Lemma xids_of_bytes_of_xids (l : list Z) :
  Forall is_xid l -> xids_of_bytes (bytes_of_xids l) = l.
Proof.
  induction 1 as [|x l Hx Hl IH]; [reflexivity|].
  unfold bytes_of_xids in *. cbn [flat_map].
  change (encode_le 4 x ++ flat_map (encode_le 4) l)
    with (byte_of_Z x :: byte_of_Z (x / 256) :: byte_of_Z (x / 256 / 256)
          :: byte_of_Z (x / 256 / 256 / 256) :: flat_map (encode_le 4) l).
  cbn [xids_of_bytes]. rewrite IH. f_equal.
  change (decode_le (encode_le 4 x) = x).
  rewrite decode_encode_le. apply Z.mod_small. exact Hx.
Qed.

Lemma insert_xid_perm (x : Z) (l : list Z) : Permutation (insert_xid x l) (x :: l).
Proof.
  induction l as [|y l IH]; [reflexivity|].
  cbn [insert_xid]. destruct (x <=? y); [reflexivity|].
  rewrite IH. apply perm_swap.
Qed.

Lemma sort_xids_perm (l : list Z) : Permutation (sort_xids l) l.
Proof.
  induction l as [|x l IH]; [reflexivity|].
  cbn [sort_xids fold_right]. fold (sort_xids l).
  rewrite insert_xid_perm. now constructor.
Qed.

Lemma insert_xid_sorted (x : Z) (l : list Z) :
  Sorted Z.le l -> Sorted Z.le (insert_xid x l).
Proof.
  induction 1 as [|y l Hl IH Hy]; [repeat constructor|].
  cbn [insert_xid]. destruct (Z.leb_spec x y).
  - repeat constructor; assumption.
  - constructor; [exact IH|].
    destruct Hy as [|z l' Hz]; cbn [insert_xid].
    + constructor. lia.
    + destruct (x <=? z); constructor; lia.
Qed.

Lemma sort_xids_sorted (l : list Z) : Sorted Z.le (sort_xids l).
Proof.
  induction l as [|x l IH]; [constructor|].
  cbn [sort_xids fold_right]. now apply insert_xid_sorted.
Qed.

Lemma insert_xid_head (x : Z) (l : list Z) :
  Sorted Z.le (x :: l) -> insert_xid x l = x :: l.
Proof.
  intro H. destruct l as [|y l]; [reflexivity|].
  cbn [insert_xid]. inversion H as [|? ? _ Hd]; subst.
  inversion Hd; subst. destruct (Z.leb_spec x y); [reflexivity|lia].
Qed.

Lemma sort_xids_of_sorted (l : list Z) : Sorted Z.le l -> sort_xids l = l.
Proof.
  induction l as [|x l IH]; intro H; [reflexivity|].
  cbn [sort_xids fold_right]. fold (sort_xids l).
  inversion H; subst. rewrite IH by assumption.
  now apply insert_xid_head.
Qed.

Lemma sort_xids_idempotent (l : list Z) : sort_xids (sort_xids l) = sort_xids l.
Proof. apply sort_xids_of_sorted, sort_xids_sorted. Qed.

Lemma length_SnapBuild_to_bytes (addr : pointer -> Z) (b : SnapBuild) :
  length (SnapBuild_to_bytes addr b) = 128%nat.
Proof.
  unfold SnapBuild_to_bytes.
  rewrite !length_app, !length_encode_le, !repeat_length. reflexivity.
Qed.

Lemma field_of_encoded (len : nat) (v : Z) (bs : list byte) :
  bs = encode_le len v -> decode_le bs = v mod 256 ^ Z.of_nat len.
Proof. intros ->. apply decode_encode_le. Qed.

(** What a state block written for [b] holds: the members of [b], with the
    bits of its pointers. *)
Definition stored (addr : pointer -> Z) (b : SnapBuild) : SnapBuild :=
  mkSnapBuild (state b) (Raw (addr (context b) mod 2 ^ 64))
    (xmin b) (xmax b) (start_decoding_at b) (two_phase_at b)
    (initial_xmin_horizon b) (building_full_snapshot b) (in_slot_creation b)
    (Raw (addr (snapshot b) mod 2 ^ 64)) (last_serialized_snapshot b)
    (Raw (addr (reorder b) mod 2 ^ 64)) (next_phase_at b)
    (committed_xcnt b) (committed_xcnt_space b)
    (committed_includes_all_transactions b)
    (Raw (addr (committed_xip b) mod 2 ^ 64))
    (catchange_xcnt b)
    (Raw (addr (catchange_xip b) mod 2 ^ 64)).

Lemma signed_of_encoded (v : Z) :
  - 2 ^ 31 <= v < 2 ^ 31 -> signed 4 (v mod 256 ^ 4) = v.
Proof.
  intro H. unfold signed.
  change (256 ^ Z.of_nat 4) with (2 ^ 32).
  change (256 ^ 4) with (2 ^ 32).
  change (2 ^ 32 / 2) with (2 ^ 31).
  destruct (Z_lt_le_dec v 0) as [Hn|Hp].
  - replace (v mod 2 ^ 32) with (v + 2 ^ 32).
    + destruct (Z.ltb_spec (v + 2 ^ 32) (2 ^ 31)); lia.
    + apply (Z.mod_unique _ _ (-1)); lia.
  - rewrite Z.mod_small by lia.
    destruct (Z.ltb_spec v (2 ^ 31)); lia.
Qed.

Lemma member_encoded (len : nat) (v : Z) (bs : list byte) :
  bs = encode_le len v -> 0 <= v < 256 ^ Z.of_nat len -> decode_le bs = v.
Proof. intros -> H. rewrite decode_encode_le. now apply Z.mod_small. Qed.

Ltac member_tac len :=
  unfold field, slice, SnapBuild_to_bytes;
  cbn [encode_le app firstn skipn repeat];
  first [ apply (member_encoded len _ _ eq_refl)
        | apply (field_of_encoded len _ _ eq_refl) ].

Lemma SnapBuild_of_to_bytes (addr : pointer -> Z) (b : SnapBuild) :
  valid_builder b ->
  SnapBuild_of_bytes (SnapBuild_to_bytes addr b) = stored addr b.
Proof.
  intros [].
  unfold is_xid, sizeof_TransactionId, MaxAllocSize in *.
  set (m := SnapBuild_to_bytes addr b).
  assert (E0 : signed 4 (field 0 4 m) = state b).
  { rewrite <- (signed_of_encoded (state b)) by assumption. f_equal.
    subst m. member_tac 4%nat. }
  assert (E1 : field 8 8 m = addr (context b) mod 2 ^ 64)
    by (subst m; member_tac 8%nat).
  assert (E2 : field 16 4 m = xmin b)
    by (subst m; member_tac 4%nat; assumption).
  assert (E3 : field 20 4 m = xmax b)
    by (subst m; member_tac 4%nat; assumption).
  assert (E4 : field 24 8 m = start_decoding_at b)
    by (subst m; member_tac 8%nat; assumption).
  assert (E5 : field 32 8 m = two_phase_at b)
    by (subst m; member_tac 8%nat; assumption).
  assert (E6 : field 40 4 m = initial_xmin_horizon b)
    by (subst m; member_tac 4%nat; assumption).
  assert (E7 : field 44 1 m = building_full_snapshot b)
    by (subst m; member_tac 1%nat; change (256 ^ Z.of_nat 1) with 256; lia).
  assert (E8 : field 45 1 m = in_slot_creation b)
    by (subst m; member_tac 1%nat; change (256 ^ Z.of_nat 1) with 256; lia).
  assert (E9 : field 48 8 m = addr (snapshot b) mod 2 ^ 64)
    by (subst m; member_tac 8%nat).
  assert (E10 : field 56 8 m = last_serialized_snapshot b)
    by (subst m; member_tac 8%nat; assumption).
  assert (E11 : field 64 8 m = addr (reorder b) mod 2 ^ 64)
    by (subst m; member_tac 8%nat).
  assert (E12 : field 72 4 m = next_phase_at b)
    by (subst m; member_tac 4%nat; assumption).
  assert (E13 : field 80 8 m = committed_xcnt b)
    by (subst m; member_tac 8%nat;
        change (256 ^ Z.of_nat 8) with (2 ^ 64); lia).
  assert (E14 : field 88 8 m = committed_xcnt_space b)
    by (subst m; member_tac 8%nat; assumption).
  assert (E15 : field 96 1 m = committed_includes_all_transactions b)
    by (subst m; member_tac 1%nat; change (256 ^ Z.of_nat 1) with 256; lia).
  assert (E16 : field 104 8 m = addr (committed_xip b) mod 2 ^ 64)
    by (subst m; member_tac 8%nat).
  assert (E17 : field 112 8 m = catchange_xcnt b)
    by (subst m; member_tac 8%nat;
        change (256 ^ Z.of_nat 8) with (2 ^ 64); lia).
  assert (E18 : field 120 8 m = addr (catchange_xip b) mod 2 ^ 64)
    by (subst m; member_tac 8%nat).
  unfold SnapBuild_of_bytes, stored.
  rewrite E0, E1, E2, E3, E4, E5, E6, E7, E8, E9, E10, E11, E12, E13, E14,
    E15, E16, E17, E18.
  reflexivity.
Qed.

Lemma slice_middle (a b c : list byte) :
  slice (length a) (length b) (a ++ b ++ c) = b.
Proof.
  unfold slice. rewrite skipn_app, skipn_all, Nat.sub_diag. cbn [skipn app].
  rewrite firstn_app, firstn_all, Nat.sub_diag. cbn [firstn].
  apply app_nil_r.
Qed.

Lemma slice_prefix (off n : nat) (a c : list byte) :
  (off + n <= length a)%nat -> slice off n (a ++ c) = slice off n a.
Proof.
  intro H. unfold slice. rewrite skipn_app, firstn_app, length_skipn.
  replace (n - (length a - off))%nat with 0%nat by lia.
  cbn [firstn]. apply app_nil_r.
Qed.

(** The answer of the reader for contents laid out as a header, a state
    block and two arrays of the announced sizes. *)
Lemma outcome_of_layout (f : open_file) (path : string)
      (hdr blk com cat rest : list byte) :
  contents f = hdr ++ blk ++ com ++ cat ++ rest ->
  length hdr = 16%nat -> length blk = 128%nat ->
  Z.of_nat (length com) = array_bytes (committed_xcnt (SnapBuild_of_bytes blk)) ->
  Z.of_nat (length cat) = array_bytes (catchange_xcnt (SnapBuild_of_bytes blk)) ->
  Z.of_nat (length com) <= MaxAllocSize ->
  Z.of_nat (length cat) <= MaxAllocSize ->
  field 0 4 hdr = SNAPBUILD_MAGIC ->
  field 8 4 hdr = SNAPBUILD_VERSION ->
  close_errno f = None ->
  outcome f path
  = if negb (EQ_CRC32C (crc32c (skipn 8 hdr ++ blk ++ com ++ cat))
               (field 4 4 hdr))
    then Raise (ERROR ERRCODE_DATA_CORRUPTED
                  (checksum_mismatch path
                     (crc32c (skipn 8 hdr ++ blk ++ com ++ cat))
                     (field 4 4 hdr)))
    else OK (mkSnapBuildOnDisk (field 0 4 hdr) (field 4 4 hdr)
               (field 8 4 hdr) (field 12 4 hdr)
               (attach (SnapBuild_of_bytes blk) com cat)).
Proof.
  intros Hc Hh Hb Hcom Hcat Mc Mk Hm Hv Hcl.
  set (c := contents f) in *.
  assert (Hf : forall off n, (off + n <= 16)%nat ->
                 field off n c = field off n hdr).
  { intros off n H. unfold field. rewrite Hc. f_equal.
    apply slice_prefix. lia. }
  assert (Hraw : slice 16 128 c = blk).
  { pose proof (slice_middle hdr blk (com ++ cat ++ rest)) as E.
    rewrite Hh, Hb in E. now rewrite Hc. }
  assert (Hrb : raw_builder c = SnapBuild_of_bytes blk).
  { unfold raw_builder. now rewrite Hraw. }
  assert (Hcb : committed_bytes c = Z.of_nat (length com)).
  { unfold committed_bytes. now rewrite Hrb. }
  assert (Hkb : catchange_bytes c = Z.of_nat (length cat)).
  { unfold catchange_bytes. now rewrite Hrb. }
  assert (Hca : committed_array c = com).
  { unfold committed_array. rewrite Hcb, Nat2Z.id, Hc.
    pose proof (slice_middle (hdr ++ blk) com (cat ++ rest)) as E.
    rewrite length_app, Hh, Hb in E. now rewrite <- app_assoc in E. }
  assert (Hka : catchange_array c = cat).
  { unfold catchange_array. rewrite Hcb, Hkb, !Nat2Z.id, Hc.
    pose proof (slice_middle ((hdr ++ blk) ++ com) cat rest) as E.
    rewrite !length_app, Hh, Hb in E. now rewrite <- !app_assoc in E. }
  assert (Hlen : Z.of_nat (length c)
                 = 144 + Z.of_nat (length com) + Z.of_nat (length cat)
                   + Z.of_nat (length rest)).
  { rewrite Hc, !length_app. lia. }
  assert (Hcov : covered c = skipn 8 hdr ++ blk ++ com ++ cat).
  { transitivity (slice 8 8 c ++ slice 16 128 c
                  ++ committed_array c ++ catchange_array c).
    - rewrite !app_assoc.
      unfold committed_array, catchange_array, covered, record_end.
      pose proof (committed_bytes_range c). pose proof (catchange_bytes_range c).
      rewrite (slice_app 8 8 128 c : slice 8 8 c ++ slice 16 128 c = _).
      rewrite (slice_app 8 (8 + 128) _ c
               : slice 8 (8 + 128) c ++ slice 144 _ c = _).
      rewrite (slice_app 8 (8 + 128 + Z.to_nat (committed_bytes c)) _ c
               : _ ++ slice (144 + Z.to_nat (committed_bytes c)) _ c = _).
      f_equal. lia.
    - rewrite Hraw, Hca, Hka. f_equal.
      rewrite Hc. rewrite slice_prefix by lia.
      unfold slice. rewrite firstn_all2; [reflexivity|].
      rewrite length_skipn. lia. }
  assert (R : reaches_checksum f).
  { unfold reaches_checksum. fold c. unfold record_end.
    rewrite !Hf by lia. rewrite Hcb, Hkb. repeat split; try assumption. lia. }
  rewrite (outcome_reaches f path R). fold c.
  rewrite Hcov, (Hf 4%nat 4%nat) by lia.
  unfold accepted_ondisk, restored_builder.
  rewrite !Hf by lia. now rewrite Hrb, Hca, Hka.
Qed.

Lemma length_payload (addr : pointer -> Z) (b : SnapBuild) :
  length (payload addr b)
  = (128 + 4 * length (ids (committed_xip b))
     + 4 * length (ids (catchange_xip b)))%nat.
Proof.
  unfold payload.
  rewrite !length_app, length_SnapBuild_to_bytes, !length_bytes_of_xids.
  rewrite (Permutation_length (sort_xids_perm _)). lia.
Qed.

Lemma position_independent_serialize (addr addr' : pointer -> Z)
      (b b' : SnapBuild) :
  same_logical_state b b' ->
  length (ids (committed_xip b')) = length (ids (committed_xip b)) ->
  position_independent (SnapBuildSerialize addr' b')
  = position_independent (SnapBuildSerialize addr b).
Proof.
  intros [] Hlen.
  unfold SnapBuildSerialize. cbv zeta.
  rewrite !length_payload. rewrite Hlen, same_catchange_xip0.
  unfold payload. rewrite same_committed_xip0, same_catchange_xip0.
  unfold SnapBuild_to_bytes.
  rewrite same_state0, same_xmin0, same_xmax0, same_start_decoding_at0,
    same_two_phase_at0, same_initial_xmin_horizon0,
    same_building_full_snapshot0, same_in_slot_creation0,
    same_last_serialized_snapshot0, same_next_phase_at0,
    same_committed_xcnt0, same_committed_xcnt_space0, same_includes_all0,
    same_catchange_xcnt0.
  cbn [position_independent erase firstn skipn app encode_le repeat Nat.add].
  reflexivity.
Qed.

Lemma array_bytes_of_length (n : nat) :
  sizeof_TransactionId * Z.of_nat n <= MaxAllocSize ->
  array_bytes (Z.of_nat n) = Z.of_nat (4 * n).
Proof.
  unfold array_bytes, sizeof_TransactionId, MaxAllocSize, SIZE_MAX_plus_1.
  intro H. destruct (Z.gtb_spec (Z.of_nat n) 0).
  - rewrite Z.mod_small; lia.
  - lia.
Qed.

Lemma ids_attach_committed (b : SnapBuild) (com cat : list byte) :
  ids (committed_xip (attach b com cat))
  = if committed_xcnt b >? 0 then xids_of_bytes com
    else ids (committed_xip b).
Proof.
  unfold attach. cbv zeta.
  change (committed_xcnt (set_context _ b)) with (committed_xcnt b).
  destruct (committed_xcnt b >? 0);
    match goal with |- context [if ?t then _ else _] => destruct t end;
    reflexivity.
Qed.

Lemma ids_attach_catchange (b : SnapBuild) (com cat : list byte) :
  ids (catchange_xip (attach b com cat))
  = if catchange_xcnt b >? 0 then xids_of_bytes cat
    else ids (catchange_xip b).
Proof.
  unfold attach. cbv zeta.
  change (committed_xcnt (set_context _ b)) with (committed_xcnt b).
  destruct (committed_xcnt b >? 0);
    cbn [catchange_xcnt set_context set_committed_xip];
    destruct (catchange_xcnt b >? 0); reflexivity.
Qed.

Lemma attach_scalars (b : SnapBuild) (com cat : list byte) :
  state (attach b com cat) = state b /\
  xmin (attach b com cat) = xmin b /\
  xmax (attach b com cat) = xmax b /\
  start_decoding_at (attach b com cat) = start_decoding_at b /\
  two_phase_at (attach b com cat) = two_phase_at b /\
  initial_xmin_horizon (attach b com cat) = initial_xmin_horizon b /\
  building_full_snapshot (attach b com cat) = building_full_snapshot b /\
  in_slot_creation (attach b com cat) = in_slot_creation b /\
  last_serialized_snapshot (attach b com cat) = last_serialized_snapshot b /\
  next_phase_at (attach b com cat) = next_phase_at b /\
  committed_xcnt_space (attach b com cat) = committed_xcnt_space b /\
  committed_includes_all_transactions (attach b com cat)
  = committed_includes_all_transactions b.
Proof.
  unfold attach. cbv zeta.
  repeat match goal with |- context [if ?t then _ else _] => destruct t end;
    repeat split.
Qed.

Lemma Forall_perm_xid (l l' : list Z) :
  Permutation l l' -> Forall is_xid l' -> Forall is_xid l.
Proof.
  intros P H. rewrite Forall_forall in *. intros x Hx. apply H.
  now apply (Permutation_in x P).
Qed.

(** What [ValidateSnapshotFile] returns for the file written for [b]. *)
Definition restored (addr : pointer -> Z) (b : SnapBuild) : SnapBuildOnDisk :=
  mkSnapBuildOnDisk SNAPBUILD_MAGIC
    (crc32c (skipn 8 (SnapBuildSerialize addr b)))
    SNAPBUILD_VERSION
    (Z.of_nat (length (payload addr b)) mod 2 ^ 32)
    (attach (stored addr b)
       (bytes_of_xids (sort_xids (ids (committed_xip b))))
       (bytes_of_xids (ids (catchange_xip b)))).

Lemma serialized_outcome (addr : pointer -> Z) (b : SnapBuild)
      (path : string) :
  valid_builder b ->
  outcome (mkFile (SnapBuildSerialize addr b) None) path
  = OK (restored addr b).
Proof.
  intro V. pose proof V as [].
  set (body := payload addr b).
  set (hdr := encode_le 4 SNAPBUILD_MAGIC
              ++ encode_le 4 (crc32c (encode_le 4 SNAPBUILD_VERSION
                   ++ encode_le 4 (Z.of_nat (length body)) ++ body))
              ++ encode_le 4 SNAPBUILD_VERSION
              ++ encode_le 4 (Z.of_nat (length body))).
  set (com := bytes_of_xids (sort_xids (ids (committed_xip b)))).
  set (cat := bytes_of_xids (ids (catchange_xip b))).
  assert (Hfile : SnapBuildSerialize addr b
                  = hdr ++ SnapBuild_to_bytes addr b ++ com ++ cat ++ []).
  { unfold SnapBuildSerialize, hdr. cbv zeta. fold body.
    rewrite app_nil_r. unfold body at 3, payload. fold com. fold cat.
    now rewrite <- !app_assoc. }
  assert (Hskip : skipn 8 hdr
                  = encode_le 4 SNAPBUILD_VERSION
                    ++ encode_le 4 (Z.of_nat (length body))).
  { unfold hdr. cbn [encode_le app skipn]. reflexivity. }
  assert (Hcov : skipn 8 hdr ++ SnapBuild_to_bytes addr b ++ com ++ cat
                 = skipn 8 (SnapBuildSerialize addr b)).
  { rewrite Hskip. unfold SnapBuildSerialize. cbv zeta. fold body.
    cbn [encode_le app skipn]. unfold body, payload. fold com. fold cat.
    reflexivity. }
  assert (Hlc : length com = (4 * length (ids (committed_xip b)))%nat).
  { unfold com. rewrite length_bytes_of_xids.
    now rewrite (Permutation_length (sort_xids_perm _)). }
  assert (Hlk : length cat = (4 * length (ids (catchange_xip b)))%nat).
  { unfold cat. now rewrite length_bytes_of_xids. }
  rewrite (outcome_of_layout (mkFile (SnapBuildSerialize addr b) None) path
             hdr (SnapBuild_to_bytes addr b) com cat [] Hfile).
  - rewrite Hcov.
    assert (E4 : field 4 4 hdr = crc32c (skipn 8 (SnapBuildSerialize addr b))).
    { unfold field, slice, hdr. cbn [encode_le app firstn skipn].
      apply (member_encoded 4 _ _ eq_refl).
      apply crc32c_range. }
    assert (E0 : field 0 4 hdr = SNAPBUILD_MAGIC).
    { unfold field, slice, hdr. cbn [encode_le app firstn skipn].
      apply (member_encoded 4 _ _ eq_refl); clear; vm_compute;
      split; [discriminate|reflexivity]. }
    assert (E8 : field 8 4 hdr = SNAPBUILD_VERSION).
    { unfold field, slice, hdr. cbn [encode_le app firstn skipn].
      apply (member_encoded 4 _ _ eq_refl); clear; vm_compute;
      split; [discriminate|reflexivity]. }
    assert (E12 : field 12 4 hdr = Z.of_nat (length body) mod 2 ^ 32).
    { unfold field, slice, hdr. cbn [encode_le app firstn skipn].
      apply (field_of_encoded 4 _ _ eq_refl). }
    rewrite E0, E4, E8, E12. unfold EQ_CRC32C. rewrite Z.eqb_refl. cbn [negb].
    unfold restored. rewrite SnapBuild_of_to_bytes by exact V.
    reflexivity.
  - unfold hdr. clear. now rewrite !length_app, !length_encode_le.
  - apply length_SnapBuild_to_bytes.
  - rewrite SnapBuild_of_to_bytes by exact V. cbn [stored committed_xcnt].
    rewrite valid_committed_xcnt0 in *.
    rewrite array_bytes_of_length by assumption. now rewrite Hlc.
  - rewrite SnapBuild_of_to_bytes by exact V. cbn [stored catchange_xcnt].
    rewrite valid_catchange_xcnt0 in *.
    rewrite array_bytes_of_length by assumption. now rewrite Hlk.
  - rewrite Hlc. unfold sizeof_TransactionId in *. lia.
  - rewrite Hlk. unfold sizeof_TransactionId in *. lia.
  - unfold field, slice, hdr. cbn [encode_le app firstn skipn].
    apply (member_encoded 4 _ _ eq_refl); clear; vm_compute;
      split; [discriminate|reflexivity].
  - unfold field, slice, hdr. cbn [encode_le app firstn skipn].
    apply (member_encoded 4 _ _ eq_refl); clear; vm_compute;
      split; [discriminate|reflexivity].
  - reflexivity.
Qed.

Lemma restored_same_state (addr : pointer -> Z) (b : SnapBuild) :
  valid_builder b ->
  same_logical_state b (builder (restored addr b)) /\
  ids (committed_xip (builder (restored addr b)))
  = sort_xids (ids (committed_xip b)) /\
  ids (catchange_xip (builder (restored addr b))) = ids (catchange_xip b).
Proof.
  intro V. pose proof V as [].
  cbn [restored builder].
  set (com := bytes_of_xids (sort_xids (ids (committed_xip b)))).
  set (cat := bytes_of_xids (ids (catchange_xip b))).
  assert (Hc : ids (committed_xip (attach (stored addr b) com cat))
               = sort_xids (ids (committed_xip b))).
  { rewrite ids_attach_committed. cbn [stored committed_xcnt committed_xip ids].
    destruct (Z.gtb_spec (committed_xcnt b) 0) as [Hp|Hz].
    - unfold com. apply xids_of_bytes_of_xids.
      apply (Forall_perm_xid _ _ (sort_xids_perm _)). assumption.
    - destruct (ids (committed_xip b)) as [|x l]; [reflexivity|].
      cbn [length] in *. lia. }
  assert (Hk : ids (catchange_xip (attach (stored addr b) com cat))
               = ids (catchange_xip b)).
  { rewrite ids_attach_catchange. cbn [stored catchange_xcnt catchange_xip ids].
    destruct (Z.gtb_spec (catchange_xcnt b) 0) as [Hp|Hz].
    - unfold cat. now apply xids_of_bytes_of_xids.
    - destruct (ids (catchange_xip b)) as [|x l]; [reflexivity|].
      cbn [length] in *. lia. }
  split; [|split; assumption].
  destruct (attach_scalars (stored addr b) com cat)
    as (E1 & E2 & E3 & E4 & E5 & E6 & E7 & E8 & E9 & E10 & E11 & E12).
  constructor; try assumption.
  - now rewrite attach_committed_xcnt.
  - rewrite Hc. apply sort_xids_idempotent.
  - now rewrite attach_catchange_xcnt.
Qed.

(** C3: the file written for a valid builder state is accepted by the
    reader, which restores a state with the same scalar members, the same
    counts, the committed ids of the builder in sorted order (the same ids,
    as many of each) and its catalog-change ids; and the file written for
    the restored state has the same bytes as the first one, apart from the
    members that hold addresses and the checksum that covers them. *)
Theorem C3_serialize_then_restore
        (addr : pointer -> Z) (b : SnapBuild)
        (fs : filesystem) (lsn : Z) (path : string) :
  valid_builder b ->
  fs path = Opened (mkFile (SnapBuildSerialize addr b) None) ->
  exists od,
    ValidateSnapshotFile fs lsn path = OK od /\
    magic od = SNAPBUILD_MAGIC /\
    version od = SNAPBUILD_VERSION /\
    same_logical_state b (builder od) /\
    ids (committed_xip (builder od)) = sort_xids (ids (committed_xip b)) /\
    Permutation (ids (committed_xip (builder od))) (ids (committed_xip b)) /\
    ids (catchange_xip (builder od)) = ids (catchange_xip b) /\
    (forall addr',
       position_independent (SnapBuildSerialize addr' (builder od))
       = position_independent (SnapBuildSerialize addr b)).
Proof.
  intros V Hfs.
  destruct (restored_same_state addr b V) as (Hs & Hc & Hk).
  exists (restored addr b).
  split.
  { rewrite (ValidateSnapshotFile_opened fs lsn path _ Hfs).
    now apply serialized_outcome. }
  split; [reflexivity|]. split; [reflexivity|].
  split; [exact Hs|]. split; [exact Hc|].
  split; [rewrite Hc; apply sort_xids_perm|].
  split; [exact Hk|].
  intro addr'. apply position_independent_serialize; [exact Hs|].
  rewrite Hc. apply Permutation_length, sort_xids_perm.
Qed.

(** The builder of the specification's scenario B: consistent, with the
    committed ids 103 and 101 and no catalog-change id. *)
Definition builder_B : SnapBuild :=
  mkSnapBuild SNAPBUILD_CONSISTENT (Raw 0) 100 104 500 0 100 0 0 (Raw 0) 0
    (Raw 0) 0 2 8 0 (Xids [103; 101]) 0 (Raw 0).

Definition null_pointers : pointer -> Z := fun _ => 0.

Lemma builder_B_valid : valid_builder builder_B.
Proof.
  constructor; cbn;
    unfold is_xid, sizeof_TransactionId, MaxAllocSize, SNAPBUILD_CONSISTENT;
    try lia; try reflexivity.
  - constructor; [lia|]. constructor; [lia|]. constructor.
  - constructor.
  - constructor.
Defined.

Example scenario_B_restored :
  ValidateSnapshotFile
    (Examples.only (SnapBuildSerialize null_pointers builder_B)) 500
    (snapshot_path 500)
  = OK (mkSnapBuildOnDisk SNAPBUILD_MAGIC 0xAA32ABC2 SNAPBUILD_VERSION 136
          (mkSnapBuild SNAPBUILD_CONSISTENT
             (Context "logicalsnapshot inspect context")
             100 104 500 0 100 0 0 (Raw 0) 0 (Raw 0) 0 2 8 0
             (Xids [101; 103]) 0 (Raw 0))).
Proof. vm_compute. reflexivity. Qed.

Lemma C3_witness :
  exists od,
    ValidateSnapshotFile
      (Examples.only (SnapBuildSerialize null_pointers builder_B)) 500
      (snapshot_path 500) = OK od /\
    magic od = SNAPBUILD_MAGIC /\
    version od = SNAPBUILD_VERSION /\
    same_logical_state builder_B (builder od) /\
    ids (committed_xip (builder od))
    = sort_xids (ids (committed_xip builder_B)) /\
    Permutation (ids (committed_xip (builder od)))
      (ids (committed_xip builder_B)) /\
    ids (catchange_xip (builder od)) = ids (catchange_xip builder_B) /\
    (forall addr',
       position_independent (SnapBuildSerialize addr' (builder od))
       = position_independent (SnapBuildSerialize null_pointers builder_B)).
Proof.
  apply (C3_serialize_then_restore null_pointers builder_B
           (Examples.only (SnapBuildSerialize null_pointers builder_B))
           500 (snapshot_path 500)).
  - exact builder_B_valid.
  - reflexivity.
Defined.

(* ================================================================== *)
(** ** The catalog-change set *)

Module CatChange.

(** Modelled from the spec: the operations of section 4.1 on the
    catalog-change set, the array [catchange.xip] of snapbuild.h, which
    "must be sorted in xidComparator order"; they are part of snapbuild.c
    ([SnapBuildPurgeOlderTxn]), which is not among the sources.
    [purge older_than_xid] "drops all entries below a threshold": it walks
    the ascending array from its start to the first id that is not below
    the threshold and keeps the array from there. *)
Fixpoint purge (older_than_xid : Z) (xip : list Z) : list Z :=
  match xip with
  | [] => []
  | xid :: rest =>
      if xid <? older_than_xid then purge older_than_xid rest else xip
  end.

End CatChange.

Lemma purge_suffix (t : Z) (xip : list Z) :
  exists dropped, xip = dropped ++ CatChange.purge t xip /\
                  Forall (fun x => x < t) dropped.
Proof.
  induction xip as [|x xip (d & E & F)].
  - exists []. split; [reflexivity|constructor].
  - cbn [CatChange.purge]. destruct (Z.ltb_spec x t).
    + exists (x :: d). split; [cbn; now f_equal|now constructor].
    + exists []. split; [reflexivity|constructor].
Qed.

Lemma purge_lower_bound (t : Z) (xip : list Z) :
  StronglySorted Z.lt xip -> Forall (fun x => t <= x) (CatChange.purge t xip).
Proof.
  induction 1 as [|x xip Hs IH Hx]; [constructor|].
  cbn [CatChange.purge]. destruct (Z.ltb_spec x t); [exact IH|].
  constructor; [assumption|].
  eapply Forall_impl; [|exact Hx]. cbn. intros. lia.
Qed.

Lemma StronglySorted_app_r (l1 l2 : list Z) :
  StronglySorted Z.lt (l1 ++ l2) -> StronglySorted Z.lt l2.
Proof.
  induction l1 as [|x l1 IH]; [trivial|].
  cbn. intro H. inversion H; subst. now apply IH.
Qed.

(** C7: on a catalog-change set, which is in strictly ascending order,
    [purge t] leaves no id below [t], keeps every id that is at least [t],
    adds none, and leaves the set in strictly ascending order. *)
Theorem C7_purge_drops_exactly_the_older (t : Z) (xip : list Z) :
  StronglySorted Z.lt xip ->
  (forall x, In x (CatChange.purge t xip) -> t <= x) /\
  (forall x, In x xip -> t <= x -> In x (CatChange.purge t xip)) /\
  (forall x, In x (CatChange.purge t xip) -> In x xip) /\
  StronglySorted Z.lt (CatChange.purge t xip).
Proof.
  intro Hs.
  destruct (purge_suffix t xip) as (d & E & Hd).
  pose proof (purge_lower_bound t xip Hs) as Hl.
  rewrite Forall_forall in Hd, Hl.
  split; [exact Hl|]. split; [|split].
  - intros x Hin Hx. rewrite E in Hin. apply in_app_or in Hin.
    destruct Hin as [Hin|Hin]; [|exact Hin].
    specialize (Hd x Hin). cbn in Hd. lia.
  - intros x Hin. rewrite E. apply in_or_app. now right.
  - rewrite E in Hs. now apply StronglySorted_app_r in Hs.
Qed.

Lemma C7_witness :
  (forall x, In x (CatChange.purge 103 [100; 101; 103; 107]) -> 103 <= x) /\
  (forall x, In x [100; 101; 103; 107] -> 103 <= x ->
             In x (CatChange.purge 103 [100; 101; 103; 107])) /\
  (forall x, In x (CatChange.purge 103 [100; 101; 103; 107]) ->
             In x [100; 101; 103; 107]) /\
  StronglySorted Z.lt (CatChange.purge 103 [100; 101; 103; 107]).
Proof.
  apply (C7_purge_drops_exactly_the_older 103 [100; 101; 103; 107]).
  repeat (constructor; [|repeat (constructor; [lia|]); constructor]).
  constructor.
Defined.

Example purge_example :
  CatChange.purge 103 [100; 101; 103; 107] = [103; 107].
Proof. reflexivity. Qed.

(* ================================================================== *)
(** ** pg_get_logical_snapshot_info, and more on the reader *)

Module Inspect.
Import Bytes CRC32C Layout Reader ReaderFacts.

(** What a call of a SQL-callable function comes to: a row, an error, or
    behaviour that C leaves undefined (a read past the end of an array). *)
Inductive answer (A : Type) : Type :=
| Returned (a : A)
| Raised (e : error)
| Undefined.
Arguments Returned {A} a.
Arguments Raised {A} e.
Arguments Undefined {A}.

(** [sizeof(Datum)] *)
Definition sizeof_Datum : Z := 8.
Definition INT_MAX : Z := 2 ^ 31 - 1.

(** Modelled from the spec: [palloc], which like [MemoryContextAllocZero]
    refuses a request above [MaxAllocSize] ("allocation failure for
    oversized arrays is propagated as a fatal error"); it is not among the
    sources. *)
Definition palloc (size : Z) : result unit :=
  if size >? MaxAllocSize
  then Raise (ERROR ERRCODE_INTERNAL_ERROR
                (invalid_memory_alloc_request_size size))
  else OK tt.

(** [Int16GetDatum] of an [int], [Int64GetDatum] of a [size_t],
    [BoolGetDatum] of a [bool]. *)
Definition Int16GetDatum (v : Z) : Z := signed 2 (v mod 2 ^ 16).
Definition Int64GetDatum (v : Z) : Z := signed 8 (v mod 2 ^ 64).
Definition BoolGetDatum (v : Z) : bool := negb (v =? 0).

(** The loop
    [for (narrayelems = 0; narrayelems < xcnt; narrayelems++)
       arrayelems[narrayelems] = Int64GetDatum((int64) xip[narrayelems]);]
    over what is left of the array [xip]: reading past its end, or
    incrementing the [int] counter past [INT_MAX], is undefined. *)
Fixpoint copy_xids (xip : list Z) (narrayelems xcnt : Z) : option (list Z) :=
  match xip with
  | [] => if narrayelems <? xcnt then None else Some []
  | xid :: xip' =>
      if narrayelems <? xcnt then
        if narrayelems + 1 >? INT_MAX then None
        else option_map (cons (Int64GetDatum xid))
               (copy_xids xip' (narrayelems + 1) xcnt)
      else Some []
  end.

(** Modelled from the spec: [construct_array_builtin] for [INT8OID], which
    allocates the array with its header of 24 bytes; it is not among the
    sources. *)
Definition construct_array_builtin (elems : list Z) : result (list Z) :=
  match palloc (24 + sizeof_Datum * Z.of_nat (length elems)) with
  | Raise e => Raise e
  | OK _ => OK elems
  end.

(** One of the two array columns: NULL for a count of zero. *)
Definition xip_column (xcnt : Z) (xip : pointer) : answer (option (list Z)) :=
  if xcnt >? 0 then
    match palloc ((xcnt * sizeof_Datum) mod SIZE_MAX_plus_1) with
    | Raise e => Raised e
    | OK _ =>
        match xip with
        | Xids elems =>
            match copy_xids elems 0 xcnt with
            | None => Undefined
            | Some arrayelems =>
                match construct_array_builtin arrayelems with
                | Raise e => Raised e
                | OK a => Returned (Some a)
                end
            end
        | _ => Undefined
        end
    end
  else Returned None.

(** The row that [pg_get_logical_snapshot_info] returns. *)
Record info_row : Type := mkInfo {
  info_state : Z;
  info_xmin : Z;
  info_xmax : Z;
  info_start_decoding_at : Z;
  info_two_phase_at : Z;
  info_initial_xmin_horizon : Z;
  info_building_full_snapshot : bool;
  info_in_slot_creation : bool;
  info_last_serialized_snapshot : Z;
  info_next_phase_at : Z;
  info_committed_count : Z;
  info_committed_xip : option (list Z);
  info_catchange_count : Z;
  info_catchange_xip : option (list Z)
}.

Definition pg_get_logical_snapshot_info (fs : filesystem) (lsn : Z)
  : answer info_row :=
  let path := snapshot_path lsn in
  match ValidateSnapshotFile fs lsn path with
  | Raise e => Raised e
  | OK ondisk =>
      let b := builder ondisk in
      match xip_column (committed_xcnt b) (committed_xip b) with
      | Raised e => Raised e
      | Undefined => Undefined
      | Returned committed =>
          match xip_column (catchange_xcnt b) (catchange_xip b) with
          | Raised e => Raised e
          | Undefined => Undefined
          | Returned catchange =>
              Returned
                (mkInfo (Int16GetDatum (state b)) (xmin b) (xmax b)
                   (start_decoding_at b) (two_phase_at b)
                   (initial_xmin_horizon b)
                   (BoolGetDatum (building_full_snapshot b))
                   (BoolGetDatum (in_slot_creation b))
                   (last_serialized_snapshot b) (next_phase_at b)
                   (Int64GetDatum (committed_xcnt b)) committed
                   (Int64GetDatum (catchange_xcnt b)) catchange)
          end
      end
  end.

End Inspect.

Import Inspect.

(** The array column that the count and the array of an accepted file
    call for. *)
Definition shown (xcnt : Z) (xip : pointer) : option (list Z) :=
  if xcnt >? 0 then
    match xip with
    | Xids elems => Some elems
    | _ => None
    end
  else None.


(** The value of an upper-case hexadecimal digit. *)
Definition hex_val (c : ascii) : option Z :=
  let n := Z.of_N (N_of_ascii c) in
  if (48 <=? n) && (n <=? 57) then Some (n - 48)
  else if (65 <=? n) && (n <=? 70) then Some (n - 55)
  else None.

(** Reading the longest run of hexadecimal digits at the start of a
    string, most significant digit first, from the value [acc] of the
    digits read so far: the value, and the rest of the string. *)
Fixpoint read_hex (acc : Z) (s : string) : Z * string :=
  match s with
  | EmptyString => (acc, s)
  | String c s' =>
      match hex_val c with
      | Some d => read_hex (16 * acc + d) s'
      | None => (acc, s)
      end
  end.

(** The number of digits that [hex_digits] writes. *)
Fixpoint count_digits (n : nat) (v : Z) : Z :=
  match n with
  | O => 0
  | S n' => if v =? 0 then 0 else 1 + count_digits n' (v / 16)
  end.

(** The file of a consistent builder with xmin 100, xmax 104, decoding
    from position 500, and the committed ids 101 and 103. *)
Definition file_B : list byte :=
  [x01; xe0; xa1; x51; xc2; xab; x32; xaa; x06; x00; x00; x00;
   x88; x00; x00; x00; x02; x00; x00; x00; x00; x00; x00; x00;
   x00; x00; x00; x00; x00; x00; x00; x00; x64; x00; x00; x00;
   x68; x00; x00; x00; xf4; x01; x00; x00; x00; x00; x00; x00;
   x00; x00; x00; x00; x00; x00; x00; x00; x64; x00; x00; x00;
   x00; x00; x00; x00; x00; x00; x00; x00; x00; x00; x00; x00;
   x00; x00; x00; x00; x00; x00; x00; x00; x00; x00; x00; x00;
   x00; x00; x00; x00; x00; x00; x00; x00; x00; x00; x00; x00;
   x02; x00; x00; x00; x00; x00; x00; x00; x08; x00; x00; x00;
   x00; x00; x00; x00; x00; x00; x00; x00; x00; x00; x00; x00;
   x00; x00; x00; x00; x00; x00; x00; x00; x00; x00; x00; x00;
   x00; x00; x00; x00; x00; x00; x00; x00; x00; x00; x00; x00;
   x65; x00; x00; x00; x67; x00; x00; x00].

(** A file like [file_B] whose committed count is [2^62] and which holds
    no id: four times the count is zero in a [Size] of 64 bits. *)
Definition file_wrapped : list byte :=
  [x01; xe0; xa1; x51; x54; xc3; x2f; x10; x06; x00; x00; x00;
   x80; x00; x00; x00; x02; x00; x00; x00; x00; x00; x00; x00;
   x00; x00; x00; x00; x00; x00; x00; x00; x64; x00; x00; x00;
   x68; x00; x00; x00; xf4; x01; x00; x00; x00; x00; x00; x00;
   x00; x00; x00; x00; x00; x00; x00; x00; x64; x00; x00; x00;
   x00; x00; x00; x00; x00; x00; x00; x00; x00; x00; x00; x00;
   x00; x00; x00; x00; x00; x00; x00; x00; x00; x00; x00; x00;
   x00; x00; x00; x00; x00; x00; x00; x00; x00; x00; x00; x00;
   x00; x00; x00; x00; x00; x00; x00; x40; x08; x00; x00; x00;
   x00; x00; x00; x00; x00; x00; x00; x00; x00; x00; x00; x00;
   x00; x00; x00; x00; x00; x00; x00; x00; x00; x00; x00; x00;
   x00; x00; x00; x00; x00; x00; x00; x00; x00; x00; x00; x00].




Lemma length_xids_of_bytes (n : nat) (m : list byte) :
  length m = (4 * n)%nat -> length (xids_of_bytes m) = n.
Proof.
  revert m. induction n as [|n IH]; intros m H.
  - destruct m; [reflexivity|discriminate].
  - destruct m as [|b0 [|b1 [|b2 [|b3 m]]]]; cbn [length] in H; try lia.
    cbn [xids_of_bytes length]. f_equal. apply IH. lia.
Qed.

Lemma xids_of_bytes_range (m : list byte) :
  Forall (fun x => 0 <= x < 2 ^ 32) (xids_of_bytes m).
Proof.
  remember (length m) as k eqn:Hk. revert m Hk.
  induction k as [k IH] using lt_wf_ind. intros m Hk.
  destruct m as [|b0 [|b1 [|b2 [|b3 m]]]]; try constructor.
  - exact (decode_le_range [b0; b1; b2; b3]).
  - apply (IH (length m)); [cbn [length] in Hk; lia|reflexivity].
Qed.

Lemma array_bytes_mod (xcnt : Z) :
  0 < xcnt -> array_bytes xcnt = 4 * (xcnt mod 2 ^ 62).
Proof.
  intro H. unfold array_bytes, sizeof_TransactionId, SIZE_MAX_plus_1.
  destruct (Z.gtb_spec xcnt 0); [|lia].
  change (2 ^ 64) with (4 * 2 ^ 62).
  rewrite Z.mul_mod_distr_l by lia. reflexivity.
Qed.

Lemma attach_committed_xip (b : SnapBuild) (com cat : list byte) :
  0 < committed_xcnt b ->
  committed_xip (attach b com cat) = Xids (xids_of_bytes com).
Proof.
  intro H. unfold attach. cbv zeta.
  change (committed_xcnt (set_context _ b)) with (committed_xcnt b).
  destruct (Z.gtb_spec (committed_xcnt b) 0); [|lia].
  match goal with |- context [if ?t then _ else _] => destruct t end;
    reflexivity.
Qed.

Lemma attach_catchange_xip (b : SnapBuild) (com cat : list byte) :
  0 < catchange_xcnt b ->
  catchange_xip (attach b com cat) = Xids (xids_of_bytes cat).
Proof.
  intro H. unfold attach. cbv zeta.
  change (committed_xcnt (set_context _ b)) with (committed_xcnt b).
  destruct (committed_xcnt b >? 0);
    cbn [catchange_xcnt set_context set_committed_xip];
    (destruct (Z.gtb_spec (catchange_xcnt b) 0); [reflexivity|lia]).
Qed.

Lemma accepted_arrays
        (fs : filesystem) (lsn : Z) (path : string) (od : SnapBuildOnDisk) :
  ValidateSnapshotFile fs lsn path = OK od ->
  (0 < committed_xcnt (builder od) ->
   exists xip,
     committed_xip (builder od) = Xids xip /\
     Z.of_nat (length xip) = committed_xcnt (builder od) mod 2 ^ 62 /\
     sizeof_TransactionId * Z.of_nat (length xip) <= MaxAllocSize /\
     Forall (fun xid => 0 <= xid < 2 ^ 32) xip) /\
  (0 < catchange_xcnt (builder od) ->
   exists xip,
     catchange_xip (builder od) = Xids xip /\
     Z.of_nat (length xip) = catchange_xcnt (builder od) mod 2 ^ 62 /\
     sizeof_TransactionId * Z.of_nat (length xip) <= MaxAllocSize /\
     Forall (fun xid => 0 <= xid < 2 ^ 32) xip).
Proof.
  intro Hok.
  destruct (fs path) as [f|errno] eqn:Hfs.
  2:{ unfold ValidateSnapshotFile in Hok. rewrite Hfs in Hok.
      destruct (errno =? ENOENT); discriminate. }
  rewrite (ValidateSnapshotFile_opened fs lsn path f Hfs) in Hok.
  apply outcome_OK_inv in Hok. destruct Hok as (R & _ & ->).
  destruct R as (_ & _ & Hcb & Hkb & He & _).
  set (c := contents f) in *.
  pose proof (committed_bytes_range c) as Rc.
  pose proof (catchange_bytes_range c) as Rk.
  unfold record_end in He.
  cbn [builder accepted_ondisk]. unfold restored_builder.
  rewrite attach_committed_xcnt, attach_catchange_xcnt.
  split; intro Hpos.
  - rewrite attach_committed_xip by exact Hpos.
    exists (xids_of_bytes (committed_array c)).
    assert (Hb : committed_bytes c
                 = 4 * (committed_xcnt (raw_builder c) mod 2 ^ 62))
      by (apply array_bytes_mod; exact Hpos).
    assert (Hl : length (committed_array c)
                 = (4 * Z.to_nat (committed_xcnt (raw_builder c) mod 2 ^ 62))%nat).
    { unfold committed_array. rewrite length_slice by lia. lia. }
    rewrite (length_xids_of_bytes _ _ Hl).
    pose proof (Z.mod_pos_bound (committed_xcnt (raw_builder c)) (2 ^ 62)
                  ltac:(lia)).
    unfold sizeof_TransactionId.
    repeat split; try lia. apply xids_of_bytes_range.
  - rewrite attach_catchange_xip by exact Hpos.
    exists (xids_of_bytes (catchange_array c)).
    assert (Hb : catchange_bytes c
                 = 4 * (catchange_xcnt (raw_builder c) mod 2 ^ 62))
      by (apply array_bytes_mod; exact Hpos).
    assert (Hl : length (catchange_array c)
                 = (4 * Z.to_nat (catchange_xcnt (raw_builder c) mod 2 ^ 62))%nat).
    { unfold catchange_array. rewrite length_slice by lia. lia. }
    rewrite (length_xids_of_bytes _ _ Hl).
    pose proof (Z.mod_pos_bound (catchange_xcnt (raw_builder c)) (2 ^ 62)
                  ltac:(lia)).
    unfold sizeof_TransactionId.
    repeat split; try lia. apply xids_of_bytes_range.
Qed.

Lemma Int64GetDatum_small (v : Z) : 0 <= v < 2 ^ 63 -> Int64GetDatum v = v.
Proof.
  intro H. unfold Int64GetDatum, signed.
  change (256 ^ Z.of_nat 8) with (2 ^ 64). change (2 ^ 64 / 2) with (2 ^ 63).
  rewrite Z.mod_small by lia.
  destruct (Z.ltb_spec v (2 ^ 63)); lia.
Qed.

Lemma map_Int64GetDatum_xids (xip : list Z) :
  Forall (fun xid => 0 <= xid < 2 ^ 32) xip -> map Int64GetDatum xip = xip.
Proof.
  induction 1 as [|x l Hx Hl IH]; [reflexivity|].
  cbn [map]. rewrite IH, Int64GetDatum_small by lia. reflexivity.
Qed.

Lemma copy_xids_all (xip : list Z) (n xcnt : Z) :
  0 <= n -> Z.of_nat (length xip) = xcnt - n -> xcnt <= INT_MAX ->
  copy_xids xip n xcnt = Some (map Int64GetDatum xip).
Proof.
  revert n. induction xip as [|x xip IH]; intros n Hn Hl Hm;
    cbn [length] in Hl; cbn [copy_xids map].
  - destruct (Z.ltb_spec n xcnt); [lia|reflexivity].
  - destruct (Z.ltb_spec n xcnt); [|lia].
    destruct (Z.gtb_spec (n + 1) INT_MAX); [lia|].
    rewrite IH by lia. reflexivity.
Qed.

Lemma copy_xids_length (xip : list Z) (n xcnt : Z) (a : list Z) :
  n <= xcnt -> n <= INT_MAX -> copy_xids xip n xcnt = Some a ->
  Z.of_nat (length a) = xcnt - n /\ xcnt <= INT_MAX.
Proof.
  revert n a. induction xip as [|x xip IH]; intros n a Hn Hm H;
    cbn [copy_xids] in H.
  - destruct (Z.ltb_spec n xcnt); [discriminate|].
    injection H as <-. cbn [length]. lia.
  - destruct (Z.ltb_spec n xcnt).
    + destruct (Z.gtb_spec (n + 1) INT_MAX); [discriminate|].
      destruct (copy_xids xip (n + 1) xcnt) as [a'|] eqn:E; [|discriminate].
      injection H as <-. cbn [length].
      destruct (IH (n + 1) a' ltac:(lia) ltac:(lia) E). lia.
    + injection H as <-. cbn [length]. lia.
Qed.

Lemma xip_column_small (xcnt : Z) (xip : list Z) :
  0 < xcnt ->
  24 + sizeof_Datum * xcnt <= MaxAllocSize ->
  Z.of_nat (length xip) = xcnt mod 2 ^ 62 ->
  Forall (fun xid => 0 <= xid < 2 ^ 32) xip ->
  xip_column xcnt (Xids xip) = Returned (Some xip).
Proof.
  unfold sizeof_Datum, MaxAllocSize. intros Hp Hs Hl Hr.
  rewrite Z.mod_small in Hl by lia.
  unfold xip_column, palloc, sizeof_Datum, SIZE_MAX_plus_1, MaxAllocSize.
  destruct (Z.gtb_spec xcnt 0); [|lia].
  rewrite Z.mod_small by lia.
  destruct (Z.gtb_spec (xcnt * 8) 1073741823); [lia|].
  rewrite (copy_xids_all xip 0 xcnt) by (unfold INT_MAX; lia).
  rewrite map_Int64GetDatum_xids by exact Hr.
  unfold construct_array_builtin, palloc, sizeof_Datum, MaxAllocSize.
  destruct (Z.gtb_spec (24 + 8 * Z.of_nat (length xip)) 1073741823); [lia|].
  reflexivity.
Qed.

Lemma xip_column_returned (xcnt : Z) (xip : pointer) (col : option (list Z)) :
  0 <= xcnt ->
  xip_column xcnt xip = Returned col ->
  match col with
  | None => xcnt = 0
  | Some a => 0 < xcnt /\ Z.of_nat (length a) = xcnt /\
              24 + sizeof_Datum * xcnt <= MaxAllocSize
  end.
Proof.
  intros Hn H. unfold xip_column in H.
  destruct (Z.gtb_spec xcnt 0).
  - destruct (palloc _) as [u|e0]; [|discriminate].
    destruct xip as [bits|name|elems]; try discriminate.
    destruct (copy_xids elems 0 xcnt) as [arr|] eqn:E; [|discriminate].
    destruct (construct_array_builtin arr) as [arr'|e1] eqn:C; [|discriminate].
    injection H as <-.
    unfold construct_array_builtin, palloc in C.
    destruct (Z.gtb_spec (24 + sizeof_Datum * Z.of_nat (length arr)) MaxAllocSize);
      [discriminate|].
    injection C as <-.
    destruct (copy_xids_length elems 0 xcnt arr ltac:(lia)
                ltac:(unfold INT_MAX; lia) E) as (Hl & _).
    rewrite Z.sub_0_r in Hl. rewrite <- Hl. lia.
  - injection H as <-. lia.
Qed.

Lemma accepted_counts (fs : filesystem) (lsn : Z) (path : string)
      (od : SnapBuildOnDisk) :
  ValidateSnapshotFile fs lsn path = OK od ->
  0 <= committed_xcnt (builder od) < 2 ^ 64 /\
  0 <= catchange_xcnt (builder od) < 2 ^ 64.
Proof.
  intro Hok.
  destruct (fs path) as [f|errno] eqn:Hfs.
  2:{ unfold ValidateSnapshotFile in Hok. rewrite Hfs in Hok.
      destruct (errno =? ENOENT); discriminate. }
  rewrite (ValidateSnapshotFile_opened fs lsn path f Hfs) in Hok.
  apply outcome_OK_inv in Hok. destruct Hok as (_ & _ & ->).
  cbn [builder accepted_ondisk]. unfold restored_builder.
  rewrite attach_committed_xcnt, attach_catchange_xcnt.
  rewrite committed_xcnt_field, catchange_xcnt_field.
  unfold field.
  pose proof (decode_le_range (slice 96 8 (contents f))) as H1.
  pose proof (decode_le_range (slice 128 8 (contents f))) as H2.
  assert (L : forall off, (length (slice off 8 (contents f)) <= 8)%nat).
  { intro off. unfold slice. apply firstn_le_length. }
  assert (P : forall n, (n <= 8)%nat -> 256 ^ Z.of_nat n <= 2 ^ 64).
  { intros n Hn. change (2 ^ 64) with (256 ^ 8).
    apply Z.pow_le_mono_r; lia. }
  pose proof (P _ (L 96%nat)). pose proof (P _ (L 128%nat)). lia.
Qed.

(** Whatever the file, a row that [pg_get_logical_snapshot_info] returns
    has array columns that agree with its count columns: NULL for a count
    of zero, and otherwise as many elements as the count says, few enough
    for the array of datums to be allocated. *)
Theorem info_arrays_agree_with_counts
        (fs : filesystem) (lsn : Z) (row : info_row) :
  pg_get_logical_snapshot_info fs lsn = Returned row ->
  match info_committed_xip row with
  | None => info_committed_count row = 0
  | Some a => 0 < info_committed_count row /\
              Z.of_nat (length a) = info_committed_count row /\
              24 + sizeof_Datum * info_committed_count row <= MaxAllocSize
  end /\
  match info_catchange_xip row with
  | None => info_catchange_count row = 0
  | Some a => 0 < info_catchange_count row /\
              Z.of_nat (length a) = info_catchange_count row /\
              24 + sizeof_Datum * info_catchange_count row <= MaxAllocSize
  end.
Proof.
  unfold pg_get_logical_snapshot_info. cbv zeta.
  destruct (ValidateSnapshotFile fs lsn (snapshot_path lsn)) as [od|e] eqn:V;
    [|discriminate].
  destruct (accepted_counts _ _ _ _ V) as (Rc & Rk).
  destruct (xip_column (committed_xcnt (builder od)) (committed_xip (builder od)))
    as [com|e|] eqn:C; try discriminate.
  destruct (xip_column (catchange_xcnt (builder od)) (catchange_xip (builder od)))
    as [cat|e|] eqn:K; try discriminate.
  intro H. injection H as <-.
  cbn [info_committed_xip info_committed_count
       info_catchange_xip info_catchange_count].
  apply xip_column_returned in C; [|lia].
  apply xip_column_returned in K; [|lia].
  unfold sizeof_Datum, MaxAllocSize in *.
  split.
  - destruct com as [a|].
    + rewrite Int64GetDatum_small by lia. lia.
    + rewrite C. reflexivity.
  - destruct cat as [a|].
    + rewrite Int64GetDatum_small by lia. lia.
    + rewrite K. reflexivity.
Qed.

Lemma accepted_column (fs : filesystem) (lsn : Z) (path : string)
      (od : SnapBuildOnDisk) :
  ValidateSnapshotFile fs lsn path = OK od ->
  (24 + sizeof_Datum * committed_xcnt (builder od) <= MaxAllocSize ->
   xip_column (committed_xcnt (builder od)) (committed_xip (builder od))
   = Returned (shown (committed_xcnt (builder od)) (committed_xip (builder od)))) /\
  (24 + sizeof_Datum * catchange_xcnt (builder od) <= MaxAllocSize ->
   xip_column (catchange_xcnt (builder od)) (catchange_xip (builder od))
   = Returned (shown (catchange_xcnt (builder od)) (catchange_xip (builder od)))).
Proof.
  intro V.
  destruct (accepted_counts _ _ _ _ V) as (Rc & Rk).
  destruct (accepted_arrays _ _ _ _ V) as (Ac & Ak).
  split; intro Hs.
  - destruct (Z_lt_le_dec 0 (committed_xcnt (builder od))) as [Hp|Hz].
    + destruct (Ac Hp) as (xip & E & Hl & _ & Hr). rewrite E.
      unfold shown. destruct (Z.gtb_spec (committed_xcnt (builder od)) 0); [|lia].
      now apply xip_column_small.
    + unfold xip_column, shown.
      destruct (Z.gtb_spec (committed_xcnt (builder od)) 0); [lia|reflexivity].
  - destruct (Z_lt_le_dec 0 (catchange_xcnt (builder od))) as [Hp|Hz].
    + destruct (Ak Hp) as (xip & E & Hl & _ & Hr). rewrite E.
      unfold shown. destruct (Z.gtb_spec (catchange_xcnt (builder od)) 0); [|lia].
      now apply xip_column_small.
    + unfold xip_column, shown.
      destruct (Z.gtb_spec (catchange_xcnt (builder od)) 0); [lia|reflexivity].
Qed.

(** For an accepted file whose counts leave room for the arrays of datums
    (24 bytes of header and 8 bytes per id within [MaxAllocSize]),
    [pg_get_logical_snapshot_info] returns the members of the restored
    builder, the state as an [int2], the flags as booleans, and for each
    set its count and its ids in the order of the file. *)
Theorem info_shows_the_restored_builder
        (fs : filesystem) (lsn : Z) (od : SnapBuildOnDisk) :
  ValidateSnapshotFile fs lsn (snapshot_path lsn) = OK od ->
  24 + sizeof_Datum * committed_xcnt (builder od) <= MaxAllocSize ->
  24 + sizeof_Datum * catchange_xcnt (builder od) <= MaxAllocSize ->
  pg_get_logical_snapshot_info fs lsn
  = Returned
      (mkInfo (Int16GetDatum (state (builder od)))
         (xmin (builder od)) (xmax (builder od))
         (start_decoding_at (builder od)) (two_phase_at (builder od))
         (initial_xmin_horizon (builder od))
         (BoolGetDatum (building_full_snapshot (builder od)))
         (BoolGetDatum (in_slot_creation (builder od)))
         (last_serialized_snapshot (builder od)) (next_phase_at (builder od))
         (committed_xcnt (builder od))
         (shown (committed_xcnt (builder od)) (committed_xip (builder od)))
         (catchange_xcnt (builder od))
         (shown (catchange_xcnt (builder od)) (catchange_xip (builder od)))).
Proof.
  intros V Hc Hk.
  destruct (accepted_counts _ _ _ _ V) as (Rc & Rk).
  destruct (accepted_column _ _ _ _ V) as (Cc & Ck).
  unfold pg_get_logical_snapshot_info. cbv zeta.
  rewrite V, (Cc Hc), (Ck Hk).
  unfold sizeof_Datum, MaxAllocSize in *.
  rewrite !Int64GetDatum_small by lia. reflexivity.
Qed.

Lemma Int32GetDatum_range (v : Z) :
  0 <= v < 2 ^ 32 ->
  - 2 ^ 31 <= Int32GetDatum v < 2 ^ 31 /\ Int32GetDatum v mod 2 ^ 32 = v.
Proof.
  intro H. unfold Int32GetDatum, signed.
  change (256 ^ Z.of_nat 4) with (2 ^ 32). change (2 ^ 32 / 2) with (2 ^ 31).
  destruct (Z.ltb_spec v (2 ^ 31)).
  - rewrite Z.mod_small by lia. lia.
  - split; [lia|]. symmetry. apply (Z.mod_unique_pos _ _ (-1)); lia.
Qed.

(** A row of [pg_get_logical_snapshot_meta] always shows the magic number
    and the version of the format, and the stored checksum as a signed
    32-bit integer. *)
Theorem meta_row_shows_the_format_constants
        (fs : filesystem) (lsn : Z) (row : meta_row) :
  pg_get_logical_snapshot_meta fs lsn = OK row ->
  meta_magic row = SNAPBUILD_MAGIC /\
  meta_version row = SNAPBUILD_VERSION /\
  - 2 ^ 31 <= meta_checksum row < 2 ^ 31 /\
  exists od,
    ValidateSnapshotFile fs lsn (snapshot_path lsn) = OK od /\
    meta_checksum row mod 2 ^ 32 = checksum od.
Proof.
  unfold pg_get_logical_snapshot_meta. cbv zeta.
  destruct (ValidateSnapshotFile fs lsn (snapshot_path lsn)) as [od|e] eqn:V;
    [|discriminate].
  intro H. injection H as <-. cbn [meta_magic meta_version meta_checksum].
  destruct (fs (snapshot_path lsn)) as [f|errno] eqn:Hfs.
  2:{ unfold ValidateSnapshotFile in V. rewrite Hfs in V.
      destruct (errno =? ENOENT); discriminate. }
  pose proof V as V'.
  rewrite (ValidateSnapshotFile_opened fs lsn _ f Hfs) in V'.
  apply outcome_OK_inv in V'. destruct V' as (R & Hcrc & ->).
  destruct R as (Hm & Hv & _).
  cbn [magic version checksum accepted_ondisk].
  rewrite Hm, Hv. rewrite <- Hcrc.
  destruct (Int32GetDatum_range (crc32c (covered (contents f)))
              (crc32c_range _)) as (Hr & Hmod).
  split; [reflexivity|]. split; [reflexivity|]. split; [exact Hr|].
  eexists. split; [reflexivity|].
  cbn [checksum accepted_ondisk]. rewrite <- Hcrc. exact Hmod.
Qed.

(** A file that cannot be closed is never accepted and never reported for
    its checksum: once the record has been read, the failure to close is
    what the reader raises. *)
Theorem close_failure_comes_before_the_checksum
        (fs : filesystem) (lsn : Z) (path : string) (f : open_file)
        (errno : Z) :
  fs path = Opened f ->
  close_errno f = Some errno ->
  (forall od, ValidateSnapshotFile fs lsn path <> OK od) /\
  (forall code p x y,
     ValidateSnapshotFile fs lsn path
     <> Raise (ERROR code (checksum_mismatch p x y))) /\
  (field 0 4 (contents f) = SNAPBUILD_MAGIC ->
   field 8 4 (contents f) = SNAPBUILD_VERSION ->
   committed_bytes (contents f) <= MaxAllocSize ->
   catchange_bytes (contents f) <= MaxAllocSize ->
   record_end (contents f) <= Z.of_nat (length (contents f)) ->
   ValidateSnapshotFile fs lsn path
   = Raise (ERROR (errcode_for_file_access errno)
              (could_not_close_file path errno))).
Proof.
  intros Hfs Hcl.
  rewrite (ValidateSnapshotFile_opened fs lsn path f Hfs).
  split; [|split].
  - intros od H.
    assert (R : reaches_checksum f)
      by (apply (outcome_reaches_inv f path); left; now exists od).
    destruct R as (_ & _ & _ & _ & _ & R). congruence.
  - intros code p x y H.
    assert (R : reaches_checksum f)
      by (apply (outcome_reaches_inv f path); right; now exists code, p, x, y).
    destruct R as (_ & _ & _ & _ & _ & R). congruence.
  - intros Hm Hv Hcb Hkb He.
    unfold outcome. cbv zeta.
    set (c := contents f) in *.
    pose proof (committed_bytes_range c) as Rc.
    pose proof (catchange_bytes_range c) as Rk.
    unfold record_end in He.
    destruct (Z.ltb_spec (Z.of_nat (length c)) 16); [lia|].
    rewrite Hm, Hv, !Z.eqb_refl. cbn [negb].
    destruct (Z.ltb_spec (Z.of_nat (length c) - 16) 128); [lia|].
    destruct (Z.gtb_spec (committed_bytes c) MaxAllocSize); [lia|].
    destruct (Z.ltb_spec (Z.of_nat (length c) - 144) (committed_bytes c)); [lia|].
    destruct (Z.gtb_spec (catchange_bytes c) MaxAllocSize); [lia|].
    destruct (Z.ltb_spec (Z.of_nat (length c) - 144 - committed_bytes c)
                (catchange_bytes c)); [lia|].
    rewrite Hcl. reflexivity.
Qed.

Lemma slice_app_l (off n : nat) (c extra : list byte) :
  (off + n <= length c)%nat -> slice off n (c ++ extra) = slice off n c.
Proof.
  intro H. unfold slice. rewrite skipn_app, firstn_app, length_skipn.
  replace (n - (length c - off))%nat with 0%nat by lia.
  cbn [firstn]. apply app_nil_r.
Qed.

Lemma outcome_with_more_bytes (f : open_file) (path : string)
      (extra : list byte) :
  record_end (contents f) <= Z.of_nat (length (contents f)) ->
  outcome (mkFile (contents f ++ extra) (close_errno f)) path
  = outcome f path.
Proof.
  intro He. set (c := contents f) in *.
  pose proof (committed_bytes_range c) as Rc.
  pose proof (catchange_bytes_range c) as Rk.
  assert (Hraw : raw_builder (c ++ extra) = raw_builder c).
  { unfold raw_builder. rewrite slice_app_l; [reflexivity|].
    unfold record_end in He. lia. }
  assert (Hcb : committed_bytes (c ++ extra) = committed_bytes c)
    by (unfold committed_bytes; now rewrite Hraw).
  assert (Hkb : catchange_bytes (c ++ extra) = catchange_bytes c)
    by (unfold catchange_bytes; now rewrite Hraw).
  assert (Hre : record_end (c ++ extra) = record_end c)
    by (unfold record_end; now rewrite Hcb, Hkb).
  unfold record_end in He.
  assert (Hf : forall off n, (off + n <= 16)%nat ->
                 field off n (c ++ extra) = field off n c).
  { intros off n H. unfold field. rewrite slice_app_l; [reflexivity|lia]. }
  assert (Hcov : covered (c ++ extra) = covered c).
  { unfold covered. rewrite Hre. apply slice_app_l.
    unfold record_end. lia. }
  assert (Hb : restored_builder (c ++ extra) = restored_builder c).
  { unfold restored_builder, committed_array, catchange_array.
    rewrite Hraw, Hcb, Hkb. rewrite !slice_app_l by lia. reflexivity. }
  unfold outcome. cbv zeta. cbn [contents close_errno]. fold c.
  rewrite !Hf, Hcb, Hkb, Hcov, Hb by lia.
  rewrite length_app.
  destruct (Z.ltb_spec (Z.of_nat (length c + length extra)) 16),
           (Z.ltb_spec (Z.of_nat (length c)) 16); try lia.
  destruct (negb (field 0 4 c =? SNAPBUILD_MAGIC)); [reflexivity|].
  destruct (negb (field 8 4 c =? SNAPBUILD_VERSION)); [reflexivity|].
  destruct (Z.ltb_spec (Z.of_nat (length c + length extra) - 16) 128),
           (Z.ltb_spec (Z.of_nat (length c) - 16) 128); try lia.
  destruct (committed_bytes c >? MaxAllocSize); [reflexivity|].
  destruct (Z.ltb_spec (Z.of_nat (length c + length extra) - 144)
              (committed_bytes c)),
           (Z.ltb_spec (Z.of_nat (length c) - 144) (committed_bytes c));
    try lia.
  destruct (catchange_bytes c >? MaxAllocSize); [reflexivity|].
  destruct (Z.ltb_spec (Z.of_nat (length c + length extra) - 144
                        - committed_bytes c) (catchange_bytes c)),
           (Z.ltb_spec (Z.of_nat (length c) - 144 - committed_bytes c)
              (catchange_bytes c)); try lia.
  reflexivity.
Qed.

(** The reader never looks past the second array: for a file that holds
    its whole record, whatever bytes follow the record change nothing in
    the answer, be it a state or an error. *)
Theorem bytes_after_the_record_change_nothing
        (fs fs' : filesystem) (lsn : Z) (path : string) (f : open_file)
        (extra : list byte) :
  fs path = Opened f ->
  fs' path = Opened (mkFile (contents f ++ extra) (close_errno f)) ->
  record_end (contents f) <= Z.of_nat (length (contents f)) ->
  ValidateSnapshotFile fs' lsn path = ValidateSnapshotFile fs lsn path.
Proof.
  intros Hfs Hfs' He.
  rewrite (ValidateSnapshotFile_opened fs lsn path f Hfs).
  rewrite (ValidateSnapshotFile_opened fs' lsn path _ Hfs').
  now apply outcome_with_more_bytes.
Qed.

Lemma outcome_of_prefix (f : open_file) (path : string) (od : SnapBuildOnDisk)
      (n : nat) (cl : option Z) :
  outcome f path = OK od ->
  Z.of_nat n < record_end (contents f) ->
  exists have want,
    outcome (mkFile (firstn n (contents f)) cl) path
    = Raise (ERROR ERRCODE_DATA_CORRUPTED (could_not_read_file path have want))
    /\ 0 <= have < want.
Proof.
  intros Hok Hn. apply outcome_OK_inv in Hok. destruct Hok as (R & _ & _).
  destruct R as (Hm & Hv & Hcb & Hkb & He & _).
  set (c := contents f) in *.
  pose proof (committed_bytes_range c) as Rc.
  pose proof (catchange_bytes_range c) as Rk.
  unfold record_end in He, Hn.
  assert (Hlen : length (firstn n c) = n) by (rewrite length_firstn; lia).
  unfold outcome, truncated. cbv zeta. cbn [contents close_errno].
  rewrite Hlen.
  destruct (Z.ltb_spec (Z.of_nat n) 16).
  { exists (Z.of_nat n), 16. split; [reflexivity|lia]. }
  unfold field. rewrite !slice_firstn by lia.
  fold (field 0 4 c). fold (field 8 4 c).
  rewrite Hm, Hv, !Z.eqb_refl. cbn [negb].
  destruct (Z.ltb_spec (Z.of_nat n - 16) 128).
  { exists (Z.of_nat n - 16), 128. split; [reflexivity|lia]. }
  assert (Hraw : raw_builder (firstn n c) = raw_builder c).
  { unfold raw_builder. rewrite slice_firstn by lia. reflexivity. }
  assert (Hcb' : committed_bytes (firstn n c) = committed_bytes c)
    by (unfold committed_bytes; now rewrite Hraw).
  assert (Hkb' : catchange_bytes (firstn n c) = catchange_bytes c)
    by (unfold catchange_bytes; now rewrite Hraw).
  rewrite Hcb', Hkb'.
  destruct (Z.gtb_spec (committed_bytes c) MaxAllocSize); [lia|].
  destruct (Z.ltb_spec (Z.of_nat n - 144) (committed_bytes c)).
  { exists (Z.of_nat n - 144), (committed_bytes c).
    split; [reflexivity|lia]. }
  destruct (Z.gtb_spec (catchange_bytes c) MaxAllocSize); [lia|].
  destruct (Z.ltb_spec (Z.of_nat n - 144 - committed_bytes c)
              (catchange_bytes c)); [|lia].
  exists (Z.of_nat n - 144 - committed_bytes c), (catchange_bytes c).
  split; [reflexivity|lia].
Qed.

(** A snapshot file that was cut short is never accepted: whatever part of
    its record is missing from an accepted file, the reader raises the
    data-corruption error of a read that came up short. *)
Theorem cut_short_file_is_rejected
        (fs fs' : filesystem) (lsn : Z) (path : string) (f : open_file)
        (od : SnapBuildOnDisk) (n : nat) (cl : option Z) :
  fs path = Opened f ->
  ValidateSnapshotFile fs lsn path = OK od ->
  Z.of_nat n < record_end (contents f) ->
  fs' path = Opened (mkFile (firstn n (contents f)) cl) ->
  exists have want,
    ValidateSnapshotFile fs' lsn path
    = Raise (ERROR ERRCODE_DATA_CORRUPTED (could_not_read_file path have want))
    /\ 0 <= have < want.
Proof.
  intros Hfs Hok Hn Hfs'.
  rewrite (ValidateSnapshotFile_opened fs lsn path f Hfs) in Hok.
  rewrite (ValidateSnapshotFile_opened fs' lsn path _ Hfs').
  exact (outcome_of_prefix f path od n cl Hok Hn).
Qed.

(** The ids that the reader restores for a set with a count above zero:
    as many as the bytes it read for them hold, which is the count modulo
    [2^62], the size being computed in a [Size] of 64 bits; so exactly
    the count when the count is below [2^62]. *)
Theorem restored_arrays_hold_count_mod_2_62
        (fs : filesystem) (lsn : Z) (path : string) (od : SnapBuildOnDisk) :
  ValidateSnapshotFile fs lsn path = OK od ->
  (0 < committed_xcnt (builder od) ->
   exists xip,
     committed_xip (builder od) = Xids xip /\
     Z.of_nat (length xip) = committed_xcnt (builder od) mod 2 ^ 62 /\
     sizeof_TransactionId * Z.of_nat (length xip) <= MaxAllocSize /\
     Forall (fun xid => 0 <= xid < 2 ^ 32) xip) /\
  (0 < catchange_xcnt (builder od) ->
   exists xip,
     catchange_xip (builder od) = Xids xip /\
     Z.of_nat (length xip) = catchange_xcnt (builder od) mod 2 ^ 62 /\
     sizeof_TransactionId * Z.of_nat (length xip) <= MaxAllocSize /\
     Forall (fun xid => 0 <= xid < 2 ^ 32) xip).
Proof.
  intro V. destruct (accepted_arrays fs lsn path od V) as (Hc & Hk).
  split; [exact Hc|exact Hk].
Qed.

Lemma hex_val_digit (d : Z) : 0 <= d < 16 -> hex_val (hex_digit d) = Some d.
Proof.
  intro H.
  assert (E : d = 0 \/ d = 1 \/ d = 2 \/ d = 3 \/ d = 4 \/ d = 5 \/ d = 6
              \/ d = 7 \/ d = 8 \/ d = 9 \/ d = 10 \/ d = 11 \/ d = 12
              \/ d = 13 \/ d = 14 \/ d = 15) by lia.
  repeat (destruct E as [->|E]; [reflexivity|]). subst d. reflexivity.
Qed.

Lemma count_digits_nonneg (n : nat) (v : Z) : 0 <= count_digits n v.
Proof.
  revert v. induction n as [|n IH]; intro v; cbn [count_digits]; [lia|].
  destruct (v =? 0); [lia|]. specialize (IH (v / 16)). lia.
Qed.

Lemma read_hex_digits (n : nat) (v acc : Z) (rest : string) :
  0 <= v < 16 ^ Z.of_nat n ->
  read_hex acc (hex_digits n v rest)
  = read_hex (acc * 16 ^ count_digits n v + v) rest.
Proof.
  revert v rest. induction n as [|n IH]; intros v rest Hv.
  - cbn [hex_digits count_digits]. change (16 ^ Z.of_nat 0) with 1 in Hv.
    f_equal. replace v with 0 by lia. cbn. lia.
  - cbn [hex_digits count_digits].
    destruct (Z.eqb_spec v 0) as [->|Hne].
    + f_equal. cbn. lia.
    + rewrite Nat2Z.inj_succ, Z.pow_succ_r in Hv by lia.
      assert (Hq : 0 <= v / 16 < 16 ^ Z.of_nat n).
      { split; [apply Z.div_pos; lia|].
        apply Z.div_lt_upper_bound; lia. }
      rewrite (IH (v / 16) _ Hq).
      cbn [read_hex].
      rewrite hex_val_digit by (apply Z.mod_pos_bound; lia).
      f_equal.
      pose proof (count_digits_nonneg n (v / 16)) as Hc.
      rewrite Z.pow_add_r by lia. change (16 ^ 1) with 16.
      pose proof (Z.div_mod v 16 ltac:(lia)). lia.
Qed.

Lemma read_hex_format_X (v : Z) (rest : string) :
  0 <= v < 2 ^ 32 ->
  read_hex 0 (format_X v ++ rest) = read_hex v rest.
Proof.
  intro Hv. unfold format_X.
  destruct (Z.eqb_spec v 0) as [->|Hne].
  - reflexivity.
  - assert (E : forall n x acc,
               (hex_digits n x acc ++ rest)%string
               = hex_digits n x (acc ++ rest)%string).
    { induction n as [|n IH]; intros x acc; cbn [hex_digits]; [reflexivity|].
      destruct (x =? 0); [reflexivity|]. now rewrite IH. }
    rewrite E. cbn [append].
    rewrite read_hex_digits by (change (16 ^ Z.of_nat 8) with (2 ^ 32); lia).
    f_equal.
Qed.

(** Two positions of 64 bits that differ have snapshot files of different
    names. *)
Theorem snapshot_path_injective (lsn lsn' : Z) :
  0 <= lsn < 2 ^ 64 -> 0 <= lsn' < 2 ^ 64 ->
  snapshot_path lsn = snapshot_path lsn' -> lsn = lsn'.
Proof.
  intros H H' E. unfold snapshot_path in E.
  set (hi := (lsn / 2 ^ 32) mod 2 ^ 32) in *.
  set (lo := lsn mod 2 ^ 32) in *.
  set (hi' := (lsn' / 2 ^ 32) mod 2 ^ 32) in *.
  set (lo' := lsn' mod 2 ^ 32) in *.
  assert (Rhi : 0 <= hi < 2 ^ 32) by (apply Z.mod_pos_bound; lia).
  assert (Rlo : 0 <= lo < 2 ^ 32) by (apply Z.mod_pos_bound; lia).
  assert (Rhi' : 0 <= hi' < 2 ^ 32) by (apply Z.mod_pos_bound; lia).
  assert (Rlo' : 0 <= lo' < 2 ^ 32) by (apply Z.mod_pos_bound; lia).
  cbn [append] in E.
  repeat match type of E with String _ _ = String _ _ => injection E as E end.
  apply (f_equal (read_hex 0)) in E.
  rewrite !read_hex_format_X in E by assumption.
  cbn [append read_hex] in E.
  change (hex_val "-") with (@None Z) in E. cbv iota in E.
  injection E as Ehi E.
  apply (f_equal (read_hex 0)) in E.
  rewrite !read_hex_format_X in E by assumption.
  cbn [append read_hex] in E.
  change (hex_val ".") with (@None Z) in E. cbv iota in E.
  injection E as Elo.
  assert (D : forall x, 0 <= x < 2 ^ 64 ->
                x = 2 ^ 32 * ((x / 2 ^ 32) mod 2 ^ 32) + x mod 2 ^ 32).
  { intros x Hx. rewrite (Z.mod_small (x / 2 ^ 32)).
    - apply Z.div_mod. lia.
    - split; [apply Z.div_pos; lia|].
      apply Z.div_lt_upper_bound; lia. }
  rewrite (D lsn H), (D lsn' H'). fold hi lo hi' lo'. congruence.
Qed.

(** [c] with its checksum member, the bytes 4 to 7, replaced by the CRC of
    the bytes that the reader covers. *)
Definition resealed (c : list byte) : list byte :=
  firstn 4 c ++ encode_le 4 (crc32c (covered c)) ++ skipn 8 c.

Lemma slice_resealed (off n : nat) (c : list byte) :
  (8 <= off)%nat -> (8 <= length c)%nat ->
  slice off n (resealed c) = slice off n c.
Proof.
  intros Ho Hl. unfold slice, resealed. f_equal.
  rewrite !skipn_app, length_firstn, length_encode_le.
  rewrite (skipn_all2 (firstn 4 c)) by (rewrite length_firstn; lia).
  rewrite (skipn_all2 (encode_le 4 _)) by (rewrite length_encode_le; lia).
  rewrite !app_nil_l, skipn_skipn. f_equal. lia.
Qed.

Lemma length_resealed (c : list byte) :
  (8 <= length c)%nat -> length (resealed c) = length c.
Proof.
  intro H. unfold resealed.
  rewrite !length_app, length_firstn, length_encode_le, length_skipn. lia.
Qed.

Lemma resealed_members (c : list byte) :
  (8 <= length c)%nat ->
  field 0 4 (resealed c) = field 0 4 c /\
  field 4 4 (resealed c) = crc32c (covered c).
Proof.
  intro H. unfold field, slice, resealed. split.
  - rewrite skipn_O, firstn_app, length_firstn.
    replace (4 - Nat.min 4 (length c))%nat with 0%nat by lia.
    rewrite firstn_O, app_nil_r, firstn_firstn. reflexivity.
  - rewrite skipn_app, length_firstn.
    rewrite (skipn_all2 (firstn 4 c)) by (rewrite length_firstn; lia).
    replace (4 - Nat.min 4 (length c))%nat with 0%nat by lia.
    rewrite skipn_O, app_nil_l, firstn_app, length_encode_le.
    change (4 - 4)%nat with 0%nat.
    rewrite firstn_O, app_nil_r.
    rewrite firstn_all2 by (rewrite length_encode_le; lia).
    rewrite decode_encode_le.
    apply Z.mod_small. exact (crc32c_range _).
Qed.

Lemma resealed_record (c : list byte) :
  (144 <= length c)%nat ->
  raw_builder (resealed c) = raw_builder c /\
  covered (resealed c) = covered c /\
  restored_builder (resealed c) = restored_builder c.
Proof.
  intro H.
  assert (Hraw : raw_builder (resealed c) = raw_builder c)
    by (unfold raw_builder; rewrite slice_resealed by lia; reflexivity).
  assert (Hcb : committed_bytes (resealed c) = committed_bytes c)
    by (unfold committed_bytes; now rewrite Hraw).
  assert (Hkb : catchange_bytes (resealed c) = catchange_bytes c)
    by (unfold catchange_bytes; now rewrite Hraw).
  split; [exact Hraw|]. split.
  - unfold covered, record_end. rewrite Hcb, Hkb.
    apply slice_resealed; lia.
  - unfold restored_builder, committed_array, catchange_array.
    rewrite Hraw, Hcb, Hkb. rewrite !slice_resealed by lia. reflexivity.
Qed.

(** The reader validates nothing but the magic number, the version, the
    sizes of the two arrays and the checksum: contents that have the first
    three right are accepted as soon as the checksum member holds the CRC
    of the covered bytes, whatever the state block and the member [length]
    hold. *)
Theorem resealed_file_is_accepted
        (fs : filesystem) (lsn : Z) (path : string) (c : list byte) :
  fs path = Opened (mkFile (resealed c) None) ->
  field 0 4 c = SNAPBUILD_MAGIC ->
  field 8 4 c = SNAPBUILD_VERSION ->
  committed_bytes c <= MaxAllocSize ->
  catchange_bytes c <= MaxAllocSize ->
  record_end c <= Z.of_nat (length c) ->
  ValidateSnapshotFile fs lsn path
  = OK (mkSnapBuildOnDisk SNAPBUILD_MAGIC (crc32c (covered c))
          SNAPBUILD_VERSION (field 12 4 c) (restored_builder c)).
Proof.
  intros Hfs Hm Hv Hcb Hkb He.
  pose proof (committed_bytes_range c) as Rc.
  pose proof (catchange_bytes_range c) as Rk.
  assert (Hl : (144 <= length c)%nat) by (unfold record_end in He; lia).
  destruct (resealed_members c ltac:(lia)) as (M0 & M4).
  destruct (resealed_record c Hl) as (Hraw & Hcov & Hb).
  assert (F8 : field 8 4 (resealed c) = field 8 4 c)
    by (unfold field; rewrite slice_resealed by lia; reflexivity).
  assert (F12 : field 12 4 (resealed c) = field 12 4 c)
    by (unfold field; rewrite slice_resealed by lia; reflexivity).
  assert (Hcb' : committed_bytes (resealed c) = committed_bytes c)
    by (unfold committed_bytes; now rewrite Hraw).
  assert (Hkb' : catchange_bytes (resealed c) = catchange_bytes c)
    by (unfold catchange_bytes; now rewrite Hraw).
  rewrite (ValidateSnapshotFile_opened fs lsn path _ Hfs).
  rewrite outcome_reaches.
  - cbn [contents]. rewrite Hcov, M4.
    assert (E : EQ_CRC32C (crc32c (covered c)) (crc32c (covered c)) = true)
      by (apply EQ_CRC32C_spec; reflexivity).
    rewrite E. cbn [negb]. unfold accepted_ondisk.
    rewrite M0, M4, F8, F12, Hb, Hm, Hv. reflexivity.
  - unfold reaches_checksum. cbv zeta. cbn [contents close_errno].
    unfold record_end. rewrite M0, F8, Hcb', Hkb', length_resealed by lia.
    unfold record_end in He. repeat split; assumption.
Qed.

(** The checksum-mismatch error is raised only for a file that was opened,
    has the expected magic number and version, holds its whole record and
    closes; the error names the path and carries the CRC of the covered
    bytes and the stored checksum, which differ. *)
Theorem checksum_mismatch_only_after_the_whole_record
        (fs : filesystem) (lsn : Z) (path : string)
        (code : errcode) (p : string) (x y : Z) :
  ValidateSnapshotFile fs lsn path
  = Raise (ERROR code (checksum_mismatch p x y)) ->
  exists f,
    fs path = Opened f /\
    field 0 4 (contents f) = SNAPBUILD_MAGIC /\
    field 8 4 (contents f) = SNAPBUILD_VERSION /\
    record_end (contents f) <= Z.of_nat (length (contents f)) /\
    close_errno f = None /\
    code = ERRCODE_DATA_CORRUPTED /\ p = path /\
    x = crc32c (covered (contents f)) /\ y = field 4 4 (contents f) /\
    x <> y.
Proof.
  intro H.
  destruct (fs path) as [f|errno] eqn:Hfs.
  - rewrite (ValidateSnapshotFile_opened fs lsn path f Hfs) in H.
    apply outcome_mismatch_inv in H.
    destruct H as (R & Hc & Hp & Hx & Hy & Hne).
    destruct R as (Hm & Hv & _ & _ & He & Hcl).
    exists f. repeat split; assumption.
  - unfold ValidateSnapshotFile in H. rewrite Hfs in H.
    destruct (errno =? ENOENT); discriminate.
Qed.

(** A count of [2^28] ids or more, below [2^62], is refused before the
    array is read and before the checksum is looked at: the reader raises
    the refusal of an allocation of four times the count, whatever else
    the file holds after its header. *)
Theorem oversized_count_is_refused
        (fs : filesystem) (lsn : Z) (path : string) (f : open_file) :
  fs path = Opened f ->
  field 0 4 (contents f) = SNAPBUILD_MAGIC ->
  field 8 4 (contents f) = SNAPBUILD_VERSION ->
  144 <= Z.of_nat (length (contents f)) ->
  2 ^ 28 <= field 96 8 (contents f) < 2 ^ 62 ->
  ValidateSnapshotFile fs lsn path
  = Raise (ERROR ERRCODE_INTERNAL_ERROR
             (invalid_memory_alloc_request_size
                (4 * field 96 8 (contents f)))).
Proof.
  intros Hfs Hm Hv Hl Hc.
  rewrite (ValidateSnapshotFile_opened fs lsn path f Hfs).
  set (c := contents f) in *.
  assert (Hcb : committed_bytes c = 4 * field 96 8 c).
  { unfold committed_bytes. rewrite committed_xcnt_field.
    rewrite array_bytes_mod by lia. rewrite Z.mod_small by lia. reflexivity. }
  unfold outcome, too_large. cbv zeta. fold c.
  destruct (Z.ltb_spec (Z.of_nat (length c)) 16); [lia|].
  rewrite Hm, Hv, !Z.eqb_refl. cbn [negb].
  destruct (Z.ltb_spec (Z.of_nat (length c) - 16) 128); [lia|].
  rewrite Hcb. unfold MaxAllocSize.
  destruct (Z.gtb_spec (4 * field 96 8 c) 1073741823); [reflexivity|lia].
Qed.

(** The two SQL functions agree on which files they refuse: every error of
    [pg_get_logical_snapshot_meta] is the error of
    [pg_get_logical_snapshot_info]; the latter returns a row only where
    the former returns one; and an error of the latter that the former does
    not raise is the refusal of an allocation above [MaxAllocSize]. *)
Theorem info_answers_where_meta_answers (fs : filesystem) (lsn : Z) :
  (forall e, pg_get_logical_snapshot_meta fs lsn = Raise e ->
     pg_get_logical_snapshot_info fs lsn = Raised e) /\
  (forall row, pg_get_logical_snapshot_info fs lsn = Returned row ->
     exists m, pg_get_logical_snapshot_meta fs lsn = OK m) /\
  (forall e, pg_get_logical_snapshot_info fs lsn = Raised e ->
     pg_get_logical_snapshot_meta fs lsn = Raise e \/
     exists size,
       e = ERROR ERRCODE_INTERNAL_ERROR
             (invalid_memory_alloc_request_size size) /\
       MaxAllocSize < size).
Proof.
  unfold pg_get_logical_snapshot_meta, pg_get_logical_snapshot_info.
  cbv zeta.
  destruct (ValidateSnapshotFile fs lsn (snapshot_path lsn)) as [od|e0].
  - split; [intros e H; discriminate|].
    split; [intros row _; eexists; reflexivity|].
    intros e H. right.
    assert (P : forall xcnt xip,
               xip_column xcnt xip = Raised e ->
               exists size,
                 e = ERROR ERRCODE_INTERNAL_ERROR
                       (invalid_memory_alloc_request_size size) /\
                 MaxAllocSize < size).
    { intros xcnt xip X. unfold xip_column in X.
      destruct (xcnt >? 0); [|discriminate].
      unfold palloc in X.
      destruct (Z.gtb_spec ((xcnt * sizeof_Datum) mod SIZE_MAX_plus_1)
                  MaxAllocSize) as [G|G].
      - injection X as <-. eexists. split; [reflexivity|exact G].
      - destruct xip as [bits|name|elems]; try discriminate.
        destruct (copy_xids elems 0 xcnt) as [arr|]; [|discriminate].
        unfold construct_array_builtin, palloc in X.
        destruct (Z.gtb_spec (24 + sizeof_Datum * Z.of_nat (length arr))
                    MaxAllocSize) as [G'|G']; [|discriminate].
        injection X as <-. eexists. split; [reflexivity|exact G']. }
    destruct (xip_column (committed_xcnt (builder od))
                (committed_xip (builder od))) as [com|e1|] eqn:C;
      try discriminate.
    + destruct (xip_column (catchange_xcnt (builder od))
                  (catchange_xip (builder od))) as [cat|e2|] eqn:K;
        try discriminate.
      injection H as ->. exact (P _ _ K).
    + injection H as ->. exact (P _ _ C).
  - split; [intros e H; injection H as ->; reflexivity|].
    split; [intros row H; discriminate|].
    intros e H. injection H as ->. left. reflexivity.
Qed.

(* ================================================================== *)
(** ** The properties above, on example files *)

Example file_B_accepted :
  ValidateSnapshotFile (Examples.only file_B) 500 (snapshot_path 500)
  = OK (mkSnapBuildOnDisk SNAPBUILD_MAGIC 0xAA32ABC2 SNAPBUILD_VERSION 136
          (mkSnapBuild SNAPBUILD_CONSISTENT
             (Context "logicalsnapshot inspect context")
             100 104 500 0 100 0 0 (Raw 0) 0 (Raw 0) 0 2 8 0
             (Xids [101; 103]) 0 (Raw 0))).
Proof. vm_compute. reflexivity. Qed.

(** [file_wrapped] is accepted with a committed count of [2^62] and an
    array without any id, and reading [2^62] ids from that array is
    undefined. *)
Example file_wrapped_accepted :
  ValidateSnapshotFile (Examples.only file_wrapped) 500 (snapshot_path 500)
  = OK (accepted_ondisk file_wrapped)
  /\ committed_xcnt (builder (accepted_ondisk file_wrapped)) = 2 ^ 62
  /\ committed_xip (builder (accepted_ondisk file_wrapped)) = Xids []
  /\ pg_get_logical_snapshot_info (Examples.only file_wrapped) 500 = Undefined.
Proof. repeat split; vm_compute; reflexivity. Qed.

Lemma info_arrays_agree_with_counts_witness :
  (0 < 2 /\ Z.of_nat (length [101; 103]) = 2 /\
   24 + sizeof_Datum * 2 <= MaxAllocSize) /\ 0 = 0.
Proof.
  apply (info_arrays_agree_with_counts (Examples.only file_B) 500
           (mkInfo 2 100 104 500 0 100 false false 0 0
              2 (Some [101; 103]) 0 None)).
  vm_compute. reflexivity.
Defined.

Lemma info_shows_the_restored_builder_witness :
  pg_get_logical_snapshot_info (Examples.only file_B) 500
  = Returned (mkInfo 2 100 104 500 0 100 false false 0 0
                2 (Some [101; 103]) 0 None).
Proof.
  apply (info_shows_the_restored_builder (Examples.only file_B) 500
           (accepted_ondisk file_B)).
  - vm_compute. reflexivity.
  - vm_compute. discriminate.
  - vm_compute. discriminate.
Defined.

Lemma meta_row_shows_the_format_constants_witness :
  meta_magic (mkMeta 1369563137 (-1439519806) 6) = SNAPBUILD_MAGIC /\
  meta_version (mkMeta 1369563137 (-1439519806) 6) = SNAPBUILD_VERSION /\
  - 2 ^ 31 <= meta_checksum (mkMeta 1369563137 (-1439519806) 6) < 2 ^ 31 /\
  exists od,
    ValidateSnapshotFile (Examples.only file_B) 500 (snapshot_path 500)
    = OK od /\
    meta_checksum (mkMeta 1369563137 (-1439519806) 6) mod 2 ^ 32
    = checksum od.
Proof.
  apply (meta_row_shows_the_format_constants (Examples.only file_B) 500).
  vm_compute. reflexivity.
Defined.

Lemma close_failure_comes_before_the_checksum_witness :
  let fs : filesystem := fun _ => Opened (mkFile Examples.zero_file (Some 5)) in
  ValidateSnapshotFile fs 0 Examples.path0
  = Raise (ERROR (errcode_for_file_access 5)
             (could_not_close_file Examples.path0 5)).
Proof.
  apply (proj2 (proj2 (close_failure_comes_before_the_checksum
                  (fun _ => Opened (mkFile Examples.zero_file (Some 5)))
                  0 Examples.path0 (mkFile Examples.zero_file (Some 5)) 5
                  eq_refl eq_refl)));
    cbn [contents]; vm_compute; (reflexivity || discriminate).
Defined.

Lemma bytes_after_the_record_change_nothing_witness :
  ValidateSnapshotFile (Examples.only (Examples.zero_file ++ [xff])) 0
    Examples.path0
  = ValidateSnapshotFile (Examples.only Examples.zero_file) 0 Examples.path0.
Proof.
  apply (bytes_after_the_record_change_nothing
           (Examples.only Examples.zero_file)
           (Examples.only (Examples.zero_file ++ [xff])) 0 Examples.path0
           (mkFile Examples.zero_file None) [xff]).
  - reflexivity.
  - reflexivity.
  - vm_compute. discriminate.
Defined.

Lemma restored_arrays_hold_count_mod_2_62_witness :
  exists xip,
    committed_xip (builder (accepted_ondisk file_B)) = Xids xip /\
    Z.of_nat (length xip)
    = committed_xcnt (builder (accepted_ondisk file_B)) mod 2 ^ 62 /\
    sizeof_TransactionId * Z.of_nat (length xip) <= MaxAllocSize /\
    Forall (fun xid => 0 <= xid < 2 ^ 32) xip.
Proof.
  apply (proj1 (restored_arrays_hold_count_mod_2_62
                  (Examples.only file_B) 500 (snapshot_path 500)
                  (accepted_ondisk file_B) ltac:(vm_compute; reflexivity))).
  vm_compute. reflexivity.
Defined.

Lemma snapshot_path_injective_witness :
  snapshot_path 500 = "pg_logical/snapshots/0-1F4.snap"%string /\ 500 = 500.
Proof.
  split; [reflexivity|].
  apply (snapshot_path_injective 500 500); [lia|lia|reflexivity].
Defined.

Lemma cut_short_file_is_rejected_witness :
  exists have want,
    ValidateSnapshotFile (Examples.only (firstn 150 file_B)) 500
      (snapshot_path 500)
    = Raise (ERROR ERRCODE_DATA_CORRUPTED
               (could_not_read_file (snapshot_path 500) have want))
    /\ 0 <= have < want.
Proof.
  apply (cut_short_file_is_rejected
           (Examples.only file_B) (Examples.only (firstn 150 file_B))
           500 (snapshot_path 500) (mkFile file_B None)
           (accepted_ondisk file_B) 150 None).
  - reflexivity.
  - vm_compute. reflexivity.
  - vm_compute. reflexivity.
  - reflexivity.
Defined.

Example cut_short_file_B :
  ValidateSnapshotFile (Examples.only (firstn 150 file_B)) 500
    (snapshot_path 500)
  = Raise (ERROR ERRCODE_DATA_CORRUPTED
             (could_not_read_file (snapshot_path 500) 6 8)).
Proof. vm_compute. reflexivity. Qed.

(** [zero_file] with a committed count of [2^28]: the byte at offset 99
    set to 16. *)
Definition zero_file_committed_2_28 : list byte :=
  firstn 99 Examples.zero_file ++ x10 :: skipn 100 Examples.zero_file.

Lemma resealed_file_is_accepted_witness :
  crc32c (covered Examples.zero_file_xmin_100) = 0x04EA57D3 /\
  ValidateSnapshotFile
    (Examples.only (resealed Examples.zero_file_xmin_100)) 0 Examples.path0
  = OK (mkSnapBuildOnDisk SNAPBUILD_MAGIC
          (crc32c (covered Examples.zero_file_xmin_100))
          SNAPBUILD_VERSION (field 12 4 Examples.zero_file_xmin_100)
          (restored_builder Examples.zero_file_xmin_100)).
Proof.
  split; [vm_compute; reflexivity|].
  apply (resealed_file_is_accepted
           (Examples.only (resealed Examples.zero_file_xmin_100)) 0
           Examples.path0 Examples.zero_file_xmin_100).
  - reflexivity.
  - vm_compute. reflexivity.
  - vm_compute. reflexivity.
  - vm_compute. discriminate.
  - vm_compute. discriminate.
  - vm_compute. discriminate.
Defined.

Lemma checksum_mismatch_only_after_the_whole_record_witness :
  exists f,
    Examples.only Examples.zero_file_xmin_100 Examples.path0 = Opened f /\
    field 0 4 (contents f) = SNAPBUILD_MAGIC /\
    field 8 4 (contents f) = SNAPBUILD_VERSION /\
    record_end (contents f) <= Z.of_nat (length (contents f)) /\
    close_errno f = None /\
    ERRCODE_DATA_CORRUPTED = ERRCODE_DATA_CORRUPTED /\
    Examples.path0 = Examples.path0 /\
    0x04EA57D3 = crc32c (covered (contents f)) /\
    0x740C5A4C = field 4 4 (contents f) /\
    0x04EA57D3 <> 0x740C5A4C.
Proof.
  apply (checksum_mismatch_only_after_the_whole_record
           (Examples.only Examples.zero_file_xmin_100) 0 Examples.path0).
  vm_compute. reflexivity.
Defined.

Lemma oversized_count_is_refused_witness :
  ValidateSnapshotFile (Examples.only zero_file_committed_2_28) 0
    Examples.path0
  = Raise (ERROR ERRCODE_INTERNAL_ERROR
             (invalid_memory_alloc_request_size
                (4 * field 96 8 zero_file_committed_2_28)))
  /\ 4 * field 96 8 zero_file_committed_2_28 = 2 ^ 30.
Proof.
  split; [|vm_compute; reflexivity].
  apply (oversized_count_is_refused
           (Examples.only zero_file_committed_2_28) 0 Examples.path0
           (mkFile zero_file_committed_2_28 None)).
  - reflexivity.
  - vm_compute. reflexivity.
  - vm_compute. reflexivity.
  - vm_compute. discriminate.
  - vm_compute. split; [discriminate|reflexivity].
Defined.

(* ================================================================== *)
(** ** What the checksum covers *)

Lemma outcome_of_the_record (f : open_file) (path : string) (n : nat)
      (rest' : list byte) :
  record_end (contents f) <= Z.of_nat (length (contents f)) ->
  Z.of_nat n = record_end (contents f) ->
  outcome (mkFile (firstn n (contents f) ++ rest') (close_errno f)) path
  = outcome f path.
Proof.
  intros He Hn. set (c := contents f) in *.
  pose proof (committed_bytes_range c) as Rc.
  pose proof (catchange_bytes_range c) as Rk.
  assert (H144 : (144 <= n)%nat) by (unfold record_end in Hn; lia).
  assert (Hraw : raw_builder (firstn n c) = raw_builder c).
  { unfold raw_builder. rewrite slice_firstn by lia. reflexivity. }
  assert (Hre : record_end (firstn n c) = record_end c).
  { unfold record_end, committed_bytes, catchange_bytes. now rewrite Hraw. }
  assert (Hl : length (firstn n c) = n) by (rewrite length_firstn; lia).
  pose (f0 := mkFile (firstn n c) (close_errno f)).
  assert (H0 : record_end (contents f0) <= Z.of_nat (length (contents f0))).
  { cbn [contents f0]. rewrite Hre, Hl. lia. }
  pose proof (outcome_with_more_bytes f0 path rest' H0) as E1.
  pose proof (outcome_with_more_bytes f0 path (skipn n c) H0) as E2.
  cbn [contents close_errno f0] in E1, E2.
  rewrite firstn_skipn in E2.
  rewrite E1, <- E2. unfold c. destruct f; reflexivity.
Qed.

(** C6, as amended: in a snapshot file that the reader accepts, the
    members lie in the order magic, checksum, version, length, state
    block, committed array, catalog-change array; the stored checksum is
    the CRC of the bytes from [version] to the end of the second array,
    and of nothing else: no byte of that part can be replaced without the
    CRC changing, the eight bytes of magic and checksum are not part of
    it, and neither are the bytes that follow the second array, which may
    be any bytes; they are none when the file holds one record and no
    more. *)
Theorem C6_checksum_covers_version_to_end_of_arrays
        (fs : filesystem) (lsn : Z) (path : string) (f : open_file)
        (od : SnapBuildOnDisk) :
  fs path = Opened f ->
  ValidateSnapshotFile fs lsn path = OK od ->
  exists blk com cat rest,
    contents f
    = encode_le 4 (magic od) ++ encode_le 4 (checksum od)
      ++ encode_le 4 (version od) ++ encode_le 4 (length_ od)
      ++ blk ++ com ++ cat ++ rest /\
    Z.of_nat (length blk) = sizeof_SnapBuild /\
    Z.of_nat (length com) = array_bytes (committed_xcnt (builder od)) /\
    Z.of_nat (length cat) = array_bytes (catchange_xcnt (builder od)) /\
    builder od = attach (SnapBuild_of_bytes blk) com cat /\
    checksum od
    = crc32c (encode_le 4 (version od) ++ encode_le 4 (length_ od)
              ++ blk ++ com ++ cat) /\
    (forall P a b Q,
       encode_le 4 (version od) ++ encode_le 4 (length_ od)
       ++ blk ++ com ++ cat = P ++ a :: Q ->
       a <> b ->
       crc32c (P ++ b :: Q) <> checksum od) /\
    (forall rest' fs',
       fs' path
       = Opened (mkFile (encode_le 4 (magic od) ++ encode_le 4 (checksum od)
                         ++ encode_le 4 (version od)
                         ++ encode_le 4 (length_ od)
                         ++ blk ++ com ++ cat ++ rest') (close_errno f)) ->
       ValidateSnapshotFile fs' lsn path = OK od) /\
    (holds_one_record (contents f) -> rest = []).
Proof.
  intros Hfs Hok.
  rewrite (ValidateSnapshotFile_opened fs lsn path f Hfs) in Hok.
  destruct (accepted_file_layout f path od Hok)
    as (blk & com & cat & rest & Hc & Hb & Hcom & Hcat & Hrest & Hbuild & Hcrc).
  pose proof Hok as Hinv. apply outcome_OK_inv in Hinv.
  destruct Hinv as (R & _ & Hod).
  destruct R as (_ & _ & _ & _ & He & _).
  exists blk, com, cat, rest.
  split; [exact Hc|]. split; [exact Hb|]. split; [exact Hcom|].
  split; [exact Hcat|]. split; [exact Hbuild|]. split; [exact Hcrc|].
  split; [|split].
  - intros P a b Q HP Hab E.
    rewrite Hcrc, HP in E.
    unfold crc32c in E. apply FIN_CRC32C_inj in E. symmetry in E. revert E.
    apply COMP_CRC32C_one_byte; [apply INIT_CRC32C_range|exact Hab].
  - intros rest' fs' Hfs'.
    rewrite (ValidateSnapshotFile_opened fs' lsn path _ Hfs').
    set (rec := encode_le 4 (magic od) ++ encode_le 4 (checksum od)
                ++ encode_le 4 (version od) ++ encode_le 4 (length_ od)
                ++ blk ++ com ++ cat).
    assert (A : forall r,
               encode_le 4 (magic od) ++ encode_le 4 (checksum od)
               ++ encode_le 4 (version od) ++ encode_le 4 (length_ od)
               ++ blk ++ com ++ cat ++ r = rec ++ r).
    { intro r. unfold rec. rewrite <- !app_assoc. reflexivity. }
    rewrite A in Hc. rewrite A.
    assert (Hl : Z.of_nat (length rec) = record_end (contents f)).
    { pose proof (f_equal (@length byte) Hc) as L.
      rewrite length_app in L. lia. }
    assert (Hf : firstn (length rec) (contents f) = rec).
    { rewrite Hc. rewrite firstn_app, Nat.sub_diag, firstn_O, app_nil_r.
      apply firstn_all. }
    rewrite <- Hf at 1.
    rewrite (outcome_of_the_record f path (length rec) rest' He Hl).
    exact Hok.
  - unfold holds_one_record. intro Hone.
    apply length_zero_iff_nil. lia.
Qed.

(** C6, as stated, fails for a file with bytes after the second array:
    the reader accepts it, and its stored checksum is not the CRC of the
    bytes from [version] to the end of the file. *)
Lemma C6_counterexample :
  ValidateSnapshotFile (Examples.only Examples.zero_file_and_more) 0
    Examples.path0
  = OK (accepted_ondisk Examples.zero_file_and_more)
  /\ checksum (accepted_ondisk Examples.zero_file_and_more) = 1946966604
  /\ crc32c (skipn 8 Examples.zero_file_and_more) = 4081901110
  /\ checksum (accepted_ondisk Examples.zero_file_and_more)
     <> crc32c (skipn 8 Examples.zero_file_and_more).
Proof.
  split; [vm_compute; reflexivity|].
  split; [vm_compute; reflexivity|].
  split; [vm_compute; reflexivity|].
  vm_compute. discriminate.
Qed.

(** [file_B] followed by two more bytes. *)
Definition file_B_and_more : list byte := file_B ++ [xff; x2a].

Lemma C6_witness :
  let od := accepted_ondisk file_B_and_more in
  exists blk com cat rest,
    file_B_and_more
    = encode_le 4 (magic od) ++ encode_le 4 (checksum od)
      ++ encode_le 4 (version od) ++ encode_le 4 (length_ od)
      ++ blk ++ com ++ cat ++ rest /\
    Z.of_nat (length blk) = sizeof_SnapBuild /\
    Z.of_nat (length com) = array_bytes (committed_xcnt (builder od)) /\
    Z.of_nat (length cat) = array_bytes (catchange_xcnt (builder od)) /\
    builder od = attach (SnapBuild_of_bytes blk) com cat /\
    checksum od
    = crc32c (encode_le 4 (version od) ++ encode_le 4 (length_ od)
              ++ blk ++ com ++ cat) /\
    (forall P a b Q,
       encode_le 4 (version od) ++ encode_le 4 (length_ od)
       ++ blk ++ com ++ cat = P ++ a :: Q ->
       a <> b ->
       crc32c (P ++ b :: Q) <> checksum od) /\
    (forall rest' fs',
       fs' (snapshot_path 500)
       = Opened (mkFile (encode_le 4 (magic od) ++ encode_le 4 (checksum od)
                         ++ encode_le 4 (version od)
                         ++ encode_le 4 (length_ od)
                         ++ blk ++ com ++ cat ++ rest') None) ->
       ValidateSnapshotFile fs' 500 (snapshot_path 500) = OK od) /\
    (holds_one_record file_B_and_more -> rest = []).
Proof.
  apply (C6_checksum_covers_version_to_end_of_arrays
           (Examples.only file_B_and_more) 500 (snapshot_path 500)
           (mkFile file_B_and_more None)
           (accepted_ondisk file_B_and_more)).
  - reflexivity.
  - vm_compute. reflexivity.
Defined.

(** The layout of [file_B]: the committed array holds the ids 101 and 103,
    and the stored checksum is the CRC of the 144 bytes from [version]
    on. *)
Example file_B_layout :
  file_B
  = encode_le 4 SNAPBUILD_MAGIC ++ encode_le 4 0xAA32ABC2
    ++ encode_le 4 SNAPBUILD_VERSION ++ encode_le 4 136
    ++ slice 16 128 file_B
    ++ (encode_le 4 101 ++ encode_le 4 103) ++ [] ++ []
  /\ crc32c (skipn 8 file_B) = 0xAA32ABC2
  /\ crc32c (skipn 8 file_B_and_more) = 26103051.
Proof. repeat split; vm_compute; reflexivity. Qed.

(* ================================================================== *)
(** ** The reader when the system fails *)

Module ReaderIO.
Import Bytes CRC32C Layout.

(** What the system may refuse while a file is validated, apart from the
    open and the close that [filesystem] and [open_file] describe: each of
    the two calls of [fsync_fname], and each call of [read], told by its
    rank among the reads of the descriptor; the [errno] of the failure. *)
Record environment : Type := mkEnv {
  fsync_file_errno : option Z;
  fsync_directory_errno : option Z;
  read_errno : nat -> option Z
}.

(** The system that refuses nothing. *)
Definition calm : environment := mkEnv None None (fun _ => None).

(** An error of the reader: one of those above, or the failure of a flush
    or of a read, with the name that was flushed or read and the [errno]. *)
Inductive failure : Type :=
| reader_error (e : error)
| could_not_fsync_file (fname : string) (errno : Z)
    (* could not fsync file "%s": %m *)
| could_not_read_file_errno (path : string) (errno : Z).
    (* could not read file "%s": %m *)

Inductive reply (A : Type) : Type :=
| Done (a : A)
| Failed (e : failure).
Arguments Done {A} a.
Arguments Failed {A} e.

Definition of_result {A : Type} (r : result A) : reply A :=
  match r with
  | OK a => Done a
  | Raise e => Failed (reader_error e)
  end.

(** Code that reads from an open descriptor: the bytes not read so far and
    the number of reads done. *)
Definition io (A : Type) : Type :=
  list byte * nat -> reply (A * (list byte * nat)).

Definition ret {A : Type} (a : A) : io A := fun st => Done (a, st).

Definition bind {A B : Type} (m : io A) (k : A -> io B) : io B :=
  fun st =>
    match m st with
    | Done (a, st') => k a st'
    | Failed e => Failed e
    end.

Definition ereport {A : Type} (e : error) : io A :=
  fun _ => Failed (reader_error e).

(** Code of [Reader] that does not read. *)
Definition lift {A : Type} (m : Reader.io A) : io A :=
  fun st =>
    match m (fst st) with
    | OK (a, fd) => Done (a, (fd, snd st))
    | Raise e => Failed (reader_error e)
    end.

Declare Scope readerio_scope.
Notation "x <- m ;; k" := (bind m (fun x => k))
  (at level 61, m at next level, right associativity) : readerio_scope.
Notation "' pat <- m ;; k" := (bind m (fun pat => k))
  (at level 61, pat pattern, m at next level, right associativity)
  : readerio_scope.
#[local] Open Scope readerio_scope.

(** Modelled from the spec: [fsync_fname] of storage/file/fd.c, which is
    not among the sources, flushes the file or directory of that name; an
    "fsync failure" is an I/O failure, "reported with the underlying
    system error attached". *)
Definition fsync_fname (fname : string) (outcome : option Z) : reply unit :=
  match outcome with
  | Some errno => Failed (could_not_fsync_file fname errno)
  | None => Done tt
  end.

(** Modelled from the spec: [SnapBuildRestoreContents] as in [Reader],
    and with the read that fails: a "read failure" is an I/O failure,
    "reported with the underlying system error attached". *)
Definition SnapBuildRestoreContents (env : environment) (size : Z)
           (path : string) : io (list byte) :=
  fun st =>
    match read_errno env (snd st) with
    | Some errno => Failed (could_not_read_file_errno path errno)
    | None =>
        match Reader.SnapBuildRestoreContents size path (fst st) with
        | OK (bytes, fd) => Done (bytes, (fd, S (snd st)))
        | Raise e => Failed (reader_error e)
        end
    end.

Definition MemoryContextAllocZero (size : Z) : io unit :=
  lift (Reader.MemoryContextAllocZero size).

Definition CloseTransientFile (f : open_file) (path : string) : io unit :=
  lift (Reader.CloseTransientFile f path).

(** The body of [ValidateSnapshotFile] from the first read on. *)
Definition validate_opened (env : environment) (f : open_file)
           (path : string) : io SnapBuildOnDisk :=
  let context := Context "logicalsnapshot inspect context" in
  (* read statically sized portion of snapshot *)
  hdr <- SnapBuildRestoreContents env SnapBuildOnDiskConstantSize path ;;
  let ondisk_magic := field 0 4 hdr in
  let ondisk_checksum := field 4 4 hdr in
  let ondisk_version := field 8 4 hdr in
  let ondisk_length := field 12 4 hdr in
  if negb (ondisk_magic =? SNAPBUILD_MAGIC) then
    ereport (ERROR ERRCODE_DATA_CORRUPTED
               (wrong_magic_number path ondisk_magic SNAPBUILD_MAGIC))
  else if negb (ondisk_version =? SNAPBUILD_VERSION) then
    ereport (ERROR ERRCODE_DATA_CORRUPTED
               (unsupported_version path ondisk_version SNAPBUILD_VERSION))
  else
    let checksum := INIT_CRC32C in
    let checksum :=
      COMP_CRC32C checksum
        (slice (Z.to_nat SnapBuildOnDiskNotChecksummedSize)
           (Z.to_nat (SnapBuildOnDiskConstantSize
                      - SnapBuildOnDiskNotChecksummedSize)) hdr) in
    (* read SnapBuild *)
    raw <- SnapBuildRestoreContents env sizeof_SnapBuild path ;;
    let checksum := COMP_CRC32C checksum raw in
    let builder := set_context context (SnapBuild_of_bytes raw) in
    (* restore committed xacts information *)
    '(builder, checksum) <-
      (if committed_xcnt builder >? 0 then
         let sz := (sizeof_TransactionId * committed_xcnt builder)
                   mod SIZE_MAX_plus_1 in
         _ <- MemoryContextAllocZero sz ;;
         xip <- SnapBuildRestoreContents env sz path ;;
         ret (set_committed_xip (Xids (xids_of_bytes xip)) builder,
              COMP_CRC32C checksum xip)
       else ret (builder, checksum)) ;;
    (* restore catalog modifying xacts information *)
    '(builder, checksum) <-
      (if catchange_xcnt builder >? 0 then
         let sz := (sizeof_TransactionId * catchange_xcnt builder)
                   mod SIZE_MAX_plus_1 in
         _ <- MemoryContextAllocZero sz ;;
         xip <- SnapBuildRestoreContents env sz path ;;
         ret (set_catchange_xip (Xids (xids_of_bytes xip)) builder,
              COMP_CRC32C checksum xip)
       else ret (builder, checksum)) ;;
    _ <- CloseTransientFile f path ;;
    let checksum := FIN_CRC32C checksum in
    (* verify checksum of what we've read *)
    if negb (EQ_CRC32C checksum ondisk_checksum) then
      ereport (ERROR ERRCODE_DATA_CORRUPTED
                 (checksum_mismatch path checksum ondisk_checksum))
    else
      ret (mkSnapBuildOnDisk ondisk_magic ondisk_checksum ondisk_version
             ondisk_length builder).

(** Validate the logical snapshot file. *)
Definition ValidateSnapshotFile (env : environment) (fs : filesystem)
           (lsn : Z) (path : string) : reply SnapBuildOnDisk :=
  match fs path with
  | OpenFailed errno =>
      if errno =? ENOENT then
        Failed (reader_error
                  (ERROR ERRCODE_INTERNAL_ERROR (file_does_not_exist path)))
      else
        Failed (reader_error
                  (ERROR (errcode_for_file_access errno)
                     (could_not_open_file path errno)))
  | Opened f =>
      match fsync_fname path (fsync_file_errno env) with
      | Failed e => Failed e
      | Done _ =>
          match fsync_fname "pg_logical/snapshots"
                  (fsync_directory_errno env) with
          | Failed e => Failed e
          | Done _ =>
              match validate_opened env f path (contents f, O) with
              | Done (ondisk, _) => Done ondisk
              | Failed e => Failed e
              end
          end
      end
  end.


End ReaderIO.

Import ReaderIO.

Ltac reader_step :=
  match goal with
  | |- context [if ?c then _ else _] => destruct c eqn:?
  | |- context [match close_errno ?f with _ => _ end] =>
      destruct (close_errno f) eqn:?
  end; cbv beta iota zeta; cbn [fst snd].

Lemma validate_opened_calm (env : environment) (f : open_file)
      (path : string) (fd : list byte) (n : nat) :
  (forall k, read_errno env k = None) ->
  match ReaderIO.validate_opened env f path (fd, n) with
  | Done (od, _) => Done od
  | Failed e => Failed e
  end
  = of_result match Reader.validate_opened f path fd with
              | OK (od, _) => OK od
              | Raise e => Raise e
              end.
Proof.
  intro Hr.
  unfold ReaderIO.validate_opened, Reader.validate_opened,
    ReaderIO.bind, Reader.bind, ReaderIO.ret, Reader.ret,
    ReaderIO.ereport, Reader.ereport,
    ReaderIO.SnapBuildRestoreContents, Reader.SnapBuildRestoreContents,
    ReaderIO.MemoryContextAllocZero, Reader.MemoryContextAllocZero,
    ReaderIO.CloseTransientFile, Reader.CloseTransientFile,
    ReaderIO.lift, Reader.ret, Reader.ereport, of_result.
  cbv beta iota zeta. cbn [fst snd].
  repeat (rewrite ?Hr; cbv beta iota zeta; reader_step).
  all: rewrite ?Hr; reflexivity.
Qed.

(** Where the system refuses no flush and no read, the reader is the one
    of [Reader]. *)
Lemma ValidateSnapshotFile_calm (env : environment) (fs : filesystem)
      (lsn : Z) (path : string) :
  fsync_file_errno env = None ->
  fsync_directory_errno env = None ->
  (forall k, read_errno env k = None) ->
  ReaderIO.ValidateSnapshotFile env fs lsn path
  = of_result (Reader.ValidateSnapshotFile fs lsn path).
Proof.
  intros Hf Hd Hr.
  unfold ReaderIO.ValidateSnapshotFile, Reader.ValidateSnapshotFile.
  destruct (fs path) as [f|errno].
  - rewrite Hf, Hd. cbn [fsync_fname].
    apply validate_opened_calm. exact Hr.
  - destruct (errno =? ENOENT); reflexivity.
Qed.





(** A read that fails is reported with the path and the error of the
    system, whatever the file holds; so is a flush of the file. *)
Example failed_read_of_the_state_block :
  ReaderIO.ValidateSnapshotFile
    (mkEnv None None (fun k => if Nat.eqb k 1 then Some 5 else None))
    (Examples.only Examples.zero_file) 0 Examples.path0
  = Failed (could_not_read_file_errno Examples.path0 5)
  /\ ReaderIO.ValidateSnapshotFile
       (mkEnv (Some 5) None (fun _ => None))
       (Examples.only Examples.zero_file_bad_magic) 0 Examples.path0
     = Failed (could_not_fsync_file Examples.path0 5)
  /\ ReaderIO.ValidateSnapshotFile calm
       (Examples.only Examples.zero_file) 0 Examples.path0
     = Done (accepted_ondisk Examples.zero_file).
Proof. repeat split; vm_compute; reflexivity. Qed.
